(** * Operando cell library: the registry dashboard script [app.py]

    A shallow embedding of the data-shaping parts of the script: the
    registry loader, the sidebar filters, the name lookup of the comparison
    view with its glossary annotation, the technique compatibility matrix
    and the JSON download.

    Modelling conventions.
    - A registry entry is a record with the nested shape the script indexes
      ([entry['compatibility']['techniques']], ...).  Fields the script reads
      with [.get] or that [json_normalize] may leave as NaN are [option]s;
      [None] is an absent key (an explicit JSON [null] is not modelled).
    - A temperature is a whole number of degrees of magnitude at most 2^53:
      the integers that pandas holds alike in an int64 column (no cell
      missing) and in a float64 column (some cell missing), and that fit
      the 64-bit columns of the table widget.  Strings are byte strings.
    - A pandas frame is its set of column labels together with its rows in
      order.  A cell that [json_normalize] fills with NaN is [None].  A row
      is the values of its cells, whatever dtype the column has.
    - A technique or instrument step applied to a frame without rows drops
      every column: [.apply] returns an empty series of dtype object there,
      which [df[...]] takes for a list of labels.  Criteria under which this
      does not happen are called [regular]; those the sidebar offers are.
    - Python exceptions are values of [PyExn]; code that can raise returns a
      [result]. *)

From Stdlib Require Import Strings.Ascii.
From stdpp Require Import base strings list sorting gmap sets.

Local Open Scope string_scope.
Local Open Scope Z_scope.

(** ** Exceptions and results *)

Inductive PyExn : Type :=
  | KeyError (key : string)
  | StopIteration
  | FileNotFoundError
  | JSONDecodeError.

Inductive result (A : Type) : Type :=
  | Ok (a : A)
  | Raise (e : PyExn).

Arguments Ok {A} a.
Arguments Raise {A} e.

#[global] Instance result_ret : MRet result := λ A a, Ok a.
#[global] Instance result_bind : MBind result :=
  λ A B f m, match m with Ok a => f a | Raise e => Raise e end.

(** ** The registry entries (section 3 of the data model) *)

Record Compatibility : Type := {
  techniques : list string;
  instruments : list string
}.

Record DigitalTwin : Type := {
  cad_available : bool
}.

(** The degrees a registry may state. *)
Definition exact_degrees (t : Z) : Prop := -(2 ^ 53) ≤ t ≤ 2 ^ 53.

#[global] Instance exact_degrees_dec t : Decision (exact_degrees t).
Proof. unfold exact_degrees. apply _. Defined.

Definition Temp : Type := dsig exact_degrees.

Record OperatingLimits : Type := {
  max_temp_c : option Temp;
  pressure_control : option bool
}.

Record Specifications : Type := {
  operating_limits : OperatingLimits
}.

Record ContactInfo : Type := {
  primary_email : option string
}.

Record Limitations3R : Type := {
  reliability : option (list string);
  representativeness : option (list string);
  reproducibility : option (list string)
}.

Record HardwareRecord : Type := {
  id : string;
  name : string;
  type : string;
  compatibility : Compatibility;
  digital_twin : DigitalTwin;
  specifications : Specifications;
  contact_info : option ContactInfo;
  limitations_3r : option Limitations3R
}.

(** ** Frames: what [pd.json_normalize] makes of the entries *)

(** One row of the frame: the flattened cells the script reads. *)
Record Row : Type := {
  r_id : string;
  r_name : string;
  r_type : string;
  r_techniques : list string;
  r_instruments : list string;
  r_cad_available : bool;
  r_max_temp_c : option Z;
  r_pressure_control : option bool;
  r_primary_email : option string
}.

Record DataFrame : Type := {
  columns : gset string;
  rows : list Row
}.

Definition col_id : string := "id".
Definition col_name : string := "name".
Definition col_type : string := "type".
Definition col_techniques : string := "compatibility.techniques".
Definition col_instruments : string := "compatibility.instruments".
Definition col_cad : string := "digital_twin.cad_available".
Definition col_max_temp : string := "specifications.operating_limits.max_temp_c".
Definition col_pressure : string := "specifications.operating_limits.pressure_control".
Definition col_email : string := "contact_info.primary_email".

Definition flatten (e : HardwareRecord) : Row := {|
  r_id := id e;
  r_name := name e;
  r_type := type e;
  r_techniques := techniques (compatibility e);
  r_instruments := instruments (compatibility e);
  r_cad_available := cad_available (digital_twin e);
  r_max_temp_c := proj1_sig <$> max_temp_c (operating_limits (specifications e));
  r_pressure_control := pressure_control (operating_limits (specifications e));
  r_primary_email := c ← contact_info e; primary_email c
|}.

(** The labels one entry contributes: a leaf that is absent from the entry
    contributes no label. *)
Definition labels_if {A} (o : option A) (label : string) : gset string :=
  match o with Some _ => {[ label ]} | None => ∅ end.

Definition required_columns : gset string :=
  {[ col_id; col_name; col_type; col_techniques; col_instruments; col_cad ]}.

Definition record_columns (e : HardwareRecord) : gset string :=
  required_columns
  ∪ labels_if (r_max_temp_c (flatten e)) col_max_temp
  ∪ labels_if (r_pressure_control (flatten e)) col_pressure
  ∪ labels_if (r_primary_email (flatten e)) col_email.

(** The frame has a column as soon as one entry carries the leaf; the
    frame of the empty list has no column at all. *)
Definition json_normalize (data : list HardwareRecord) : DataFrame := {|
  columns := ⋃ (record_columns <$> data);
  rows := flatten <$> data
|}.

(** [df[label]]: the series of one column, [KeyError] when the frame has no
    such column. *)
Definition column {A} (df : DataFrame) (label : string) (cell : Row → A)
  : result (list A) :=
  if decide (label ∈ columns df) then Ok (cell <$> rows df)
  else Raise (KeyError label).

(** [df[mask]] for a boolean series: the rows at which it is true, in
    order, under the same columns. *)
Fixpoint mask_rows (l : list Row) (mask : list bool) : list Row :=
  match l, mask with
  | r :: l', b :: mask' =>
      if b then r :: mask_rows l' mask' else mask_rows l' mask'
  | _, _ => []
  end.

Definition loc (df : DataFrame) (mask : list bool) : DataFrame := {|
  columns := columns df;
  rows := mask_rows (rows df) mask
|}.

(** [df[series]] for a series made by [.apply(...)].  On a frame with rows
    the series is boolean and masks the rows.  On a frame without rows
    [.apply] returns an empty series of dtype object, which pandas takes
    for an empty list of labels, not for a mask: the result has no column
    (and no row). *)
Definition loc_applied (df : DataFrame) (series : list bool) : DataFrame :=
  match rows df with
  | [] => {| columns := ∅; rows := [] |}
  | _ :: _ => loc df series
  end.

(** ** The sidebar filters (script section 4)

    The script's checkbox variable [pressure_control] is the field
    [pressure_control_required] here; the name stays with the entry field. *)

Record FilterCriteria : Type := {
  selected_techniques : list string;
  selected_instruments : list string;
  digital_twin_only : bool;
  high_temp_only : bool;
  pressure_control_required : bool
}.

(** [any(i in selected for i in x)] *)
Definition any_in (selected x : list string) : bool :=
  existsb (λ i, bool_decide (i ∈ selected)) x.

(** [cell == True] on a column that may hold NaN. *)
Definition is_true (cell : option bool) : bool :=
  match cell with Some true => true | _ => false end.

(** [.fillna(25)] *)
Definition fillna (d : Z) (cell : option Z) : Z := default d cell.

Definition step_techniques (selected : list string) (df : DataFrame)
  : result DataFrame :=
  match selected with
  | [] => Ok df
  | _ :: _ =>
      series ← column df col_techniques (λ r, any_in selected (r_techniques r));
      Ok (loc_applied df series)
  end.

Definition step_instruments (selected : list string) (df : DataFrame)
  : result DataFrame :=
  match selected with
  | [] => Ok df
  | _ :: _ =>
      series ← column df col_instruments (λ r, any_in selected (r_instruments r));
      Ok (loc_applied df series)
  end.

Definition step_digital_twin (flag : bool) (df : DataFrame) : result DataFrame :=
  if flag then
    mask ← column df col_cad (λ r, bool_decide (r_cad_available r = true));
    Ok (loc df mask)
  else Ok df.

Definition step_pressure (flag : bool) (df : DataFrame) : result DataFrame :=
  if flag then
    mask ← column df col_pressure (λ r, is_true (r_pressure_control r));
    Ok (loc df mask)
  else Ok df.

Definition step_high_temp (flag : bool) (df : DataFrame) : result DataFrame :=
  if flag then
    mask ← column df col_max_temp (λ r, bool_decide (100 ≤ fillna 25 (r_max_temp_c r)));
    Ok (loc df mask)
  else Ok df.

Definition filter_engine (df : DataFrame) (c : FilterCriteria) : result DataFrame :=
  filtered_df ← step_techniques (selected_techniques c) df;
  filtered_df ← step_instruments (selected_instruments c) filtered_df;
  filtered_df ← step_digital_twin (digital_twin_only c) filtered_df;
  filtered_df ← step_pressure (pressure_control_required c) filtered_df;
  step_high_temp (high_temp_only c) filtered_df.

(** ** The technique list of the sidebar (script line 59) *)

Definition string_le (s1 s2 : string) : Prop := String.leb s1 s2 = true.

#[global] Instance string_le_dec s1 s2 : Decision (string_le s1 s2).
Proof. unfold string_le. apply _. Defined.

#[global] Instance string_le_total : Total string_le.
Proof. intros s1 s2. apply String.leb_total. Qed.

(** [sorted(...)] on strings. *)
Definition sorted (l : list string) : list string := merge_sort string_le l.

(** [sorted(list(set([item for sublist in df[...] for item in sublist])))] *)
Definition all_techniques (df : DataFrame) : result (list string) :=
  sublists ← column df col_techniques r_techniques;
  Ok (sorted (remove_dups (concat sublists))).

(** ** The technique glossary and its partial match (script lines 14-39, 173-177) *)

Definition TECHNIQUE_DEFINITIONS : list (string * string) := [
  ("Neutron Diffraction", "Sensitive to light elements (Li, O) and isotopes. Used to determine long-range crystal structure and phase evolution.");
  ("Muon spectroscopy", "A sensitive local probe (μ+SR) used to quantify ion diffusion rates (Li+, Na+) and pathways at the atomic scale.");
  ("Muon Elemental Analysis", "Uses negative muons (μ-SR/μXES) to probe elemental composition far below the surface without destruction.");
  ("SANS", "Small Angle Neutron Scattering. Probes nanoscale structures (1–100 nm), such as porosity, SEI formation, and particle morphology.");
  ("XPDF", "X-ray Pair Distribution Function. Probes local structure in disordered/amorphous materials (e.g., electrolytes).");
  ("XAS", "X-ray Absorption Spectroscopy. Probes oxidation states, bond lengths, and local coordination geometry.");
  ("XRS", "X-ray Raman Scattering. Provides electronic structure information using hard X-rays; suitable for bulk measurements.");
  ("Soft XPS", "X-ray Photoelectron Spectroscopy. Surface-sensitive (<10 nm) analysis of elemental composition and SEI chemistry.");
  ("AP-XPS", "Ambient Pressure XPS. Allows surface analysis at realistic pressures (solid-gas/solid-liquid interfaces), bridging the pressure gap.");
  ("NEXAFS", "Near-Edge X-ray Absorption Fine Structure. Probes electronic structure of light elements at surfaces.");
  ("Nano-focus XRF", "X-ray Fluorescence microscopy. Maps elemental distribution with nanoscale resolution.");
  ("XANES", "X-ray Absorption Near Edge Structure. Determines oxidation state and local symmetry.");
  ("Imaging", "Visualises macroscopic features like dendrites, gas evolution, and particle cracking (2D/3D).");
  ("XRD", "X-ray Diffraction. Determines crystal structure, lattice parameters, strain, and phase evolution during cycling.");
  ("XRD-CT", "X-ray Diffraction Computed Tomography. Combines diffraction contrast with tomography to map phase distributions and strain fields in 3D.");
  ("DFXM", "Dark Field X-ray Microscopy. Allows high-resolution mapping of crystal orientation and strain within individual grains.");
  ("EXAFS", "Extended X-ray Absorption Fine Structure. Analyzes average local structure and coordination numbers in materials lacking long-range order.");
  ("RIXS", "Resonant Inelastic X-ray Scattering. Probes orbital states and charge transfer dynamics.");
  ("Neutron Total Scattering", "Characterises non-crystalline/disordered materials (e.g., liquids) using H/D isotopic substitution.");
  ("QENS", "Quasi-Elastic Neutron Scattering. Probes slow diffusional processes like Li-ion hopping.");
  ("INS", "Inelastic Neutron Scattering. Probes vibrational modes to investigate material dynamics.");
  ("Bragg Edge Imaging", "Maps crystal texture, phase distribution, and lattice strain in real space.");
  ("Ptychography", "High-resolution phase-contrast imaging for nanoscale morphology.");
  ("Neutron Reflectometry", "Measures thin films and buried interfaces.")
].

(** [str.lower] on the ASCII letters; other bytes are left as they are. *)
Definition lower_ascii (a : ascii) : ascii :=
  let n := N_of_ascii a in
  if ((65 <=? n) && (n <=? 90))%N then ascii_of_N (n + 32) else a.

Fixpoint lower (s : string) : string :=
  match s with
  | EmptyString => EmptyString
  | String a s' => String (lower_ascii a) (lower s')
  end.

(** [needle in hay] on strings. *)
Fixpoint contains (needle hay : string) : bool :=
  String.prefix needle hay
  || match hay with
     | EmptyString => false
     | String _ hay' => contains needle hay'
     end.

(** The [for key, val in ...items()] loop with its [break]; [desc] is the
    value the variable holds when the loop is entered. *)
Fixpoint glossary_scan (items : list (string * string)) (tech desc : string)
  : string :=
  match items with
  | [] => desc
  | (key, val) :: items' =>
      if contains (lower key) (lower tech) then val
      else glossary_scan items' tech desc
  end.

Definition definition_unavailable : string := "Definition unavailable.".

Definition describe (glossary : list (string * string)) (tech : string) : string :=
  glossary_scan glossary tech definition_unavailable.

(** ** Comparison cards (script lines 150-189) *)

(** [next(item for item in raw_json if item["name"] == cell_name)] *)
Fixpoint next_named (raw_json : list HardwareRecord) (cell_name : string)
  : result HardwareRecord :=
  match raw_json with
  | [] => Raise StopIteration
  | item :: raw_json' =>
      if bool_decide (name item = cell_name) then Ok item
      else next_named raw_json' cell_name
  end.

Record Card : Type := {
  card_title : string;
  card_type : string;
  card_email : string;
  card_max_temp : Z;
  card_pressure_control : string;
  card_cad_available : string;
  card_techniques : list (string * string);
  card_reliability : list string;
  card_representativeness : list string;
  card_reproducibility : list string
}.

Definition yes_no (b : bool) : string := if b then "Yes" else "No".

Definition card_of (glossary : list (string * string)) (cell_data : HardwareRecord)
  : Card :=
  let limits := operating_limits (specifications cell_data) in
  let r3 := limitations_3r cell_data in
  {| card_title := name cell_data;
     card_type := type cell_data;
     card_email := default "N/A" (c ← contact_info cell_data; primary_email c);
     card_max_temp := default 25 (proj1_sig <$> max_temp_c limits);
     card_pressure_control := yes_no (default false (pressure_control limits));
     card_cad_available := yes_no (cad_available (digital_twin cell_data));
     card_techniques :=
       (λ tech, (tech, describe glossary tech)) <$> techniques (compatibility cell_data);
     card_reliability := default [] (r ← r3; reliability r);
     card_representativeness := default [] (r ← r3; representativeness r);
     card_reproducibility := default [] (r ← r3; reproducibility r) |}.

(** The loop over the selected names: the first failing lookup ends it. *)
Fixpoint comparison (raw_json : list HardwareRecord) (selected_cell_names : list string)
  : result (list Card) :=
  match selected_cell_names with
  | [] => Ok []
  | cell_name :: names =>
      cell_data ← next_named raw_json cell_name;
      cards ← comparison raw_json names;
      Ok (card_of TECHNIQUE_DEFINITIONS cell_data :: cards)
  end.

(** ** The technique compatibility matrix (script lines 195-204) *)

Inductive MatrixCell : Type :=
  | Label (s : string)
  | Flag (b : bool).

(** The dict of one row: key ["Cell"], then one key per technique. *)
Definition matrix_row (techs : list string) (entry : HardwareRecord)
  : gmap string MatrixCell :=
  foldl
    (λ row tech,
       <[tech := Flag (bool_decide (tech ∈ techniques (compatibility entry)))]> row)
    {[ "Cell" := Label (name entry) ]}
    techs.

Fixpoint technique_matrix (raw_json : list HardwareRecord) (filtered_df : DataFrame)
    (techs : list string) : result (list (gmap string MatrixCell)) :=
  match raw_json with
  | [] => Ok []
  | entry :: raw_json' =>
      names ← column filtered_df col_name r_name;
      matrix ← technique_matrix raw_json' filtered_df techs;
      Ok (if bool_decide (name entry ∈ names)
          then matrix_row techs entry :: matrix
          else matrix)
  end.

(** [pd.DataFrame(technique_matrix).set_index("Cell")], built only for a
    non-empty list of rows. *)
Record MatrixFrame : Type := {
  m_index : list (option MatrixCell);
  m_columns : gset string;
  m_cells : list (gmap string MatrixCell)
}.

Definition df_matrix (matrix : list (gmap string MatrixCell)) : option MatrixFrame :=
  match matrix with
  | [] => None
  | _ :: _ =>
      Some {| m_index := (λ row, row !! "Cell") <$> matrix;
              m_columns := ⋃ (dom <$> matrix) ∖ {[ "Cell" ]};
              m_cells := delete "Cell" <$> matrix |}
  end.

(** ** The download (script lines 222-227) *)

Definition filtered_json_download (raw_json : list HardwareRecord)
    (filtered_df : DataFrame) : result (list HardwareRecord) :=
  visible_ids ← column filtered_df col_id r_id;
  Ok (filter (λ entry, id entry ∈ visible_ids) raw_json).

(** ** The registry file and its loader (script lines 42-51)

    A document stands for the file named by the script, as far as [open]
    and [json.load] tell documents apart. *)

Inductive Document : Type :=
  | NoFile
  | NotJson
  | RecordList (data : list HardwareRecord)
  | SingleRecord (entry : HardwareRecord).

(** What [json.load] returns. *)
Inductive RawJson : Type :=
  | RawList (data : list HardwareRecord)
  | RawDict (entry : HardwareRecord).

Definition json_load (doc : Document) : result RawJson :=
  match doc with
  | NoFile => Raise FileNotFoundError
  | NotJson => Raise JSONDecodeError
  | RecordList data => Ok (RawList data)
  | SingleRecord entry => Ok (RawDict entry)
  end.

(** [pd.json_normalize] wraps a single dict into a list. *)
Definition pd_json_normalize (data : RawJson) : DataFrame :=
  match data with
  | RawList l => json_normalize l
  | RawDict entry => json_normalize [entry]
  end.

Inductive LoadOutcome : Type :=
  | Loaded (df : DataFrame) (raw_json : RawJson)
  | Stopped (message : string)
  | Uncaught (e : PyExn).

Definition registry_not_found : string :=
  "Registry file not found. Ensure 'operando_cell_registry.json' is in the directory.".

Definition load_registry (doc : Document) : LoadOutcome :=
  match json_load doc with
  | Ok data => Loaded (pd_json_normalize data) data
  | Raise FileNotFoundError => Stopped registry_not_found
  | Raise e => Uncaught e
  end.

(** [json.dumps(records, indent=2)] written to a file: the document that
    [json.load] reads back as the same list. *)
Definition json_dumps (records : list HardwareRecord) : Document :=
  RecordList records.

(** ** The filter contract in the words of the specification *)

(** The technique (instrument) set of a record meets the selection. *)
Definition intersects (x selected : list string) : Prop :=
  Exists (λ t, t ∈ selected) x.

(** A step whose criterion is empty or false lets every record through;
    the five steps are taken together. *)
Definition accepts (c : FilterCriteria) (r : Row) : Prop :=
  (selected_techniques c = [] ∨ intersects (r_techniques r) (selected_techniques c))
  ∧ (selected_instruments c = [] ∨ intersects (r_instruments r) (selected_instruments c))
  ∧ (digital_twin_only c = false ∨ r_cad_available r = true)
  ∧ (pressure_control_required c = false ∨ default false (r_pressure_control r) = true)
  ∧ (high_temp_only c = false ∨ 100 ≤ default 25 (r_max_temp_c r)).

#[global] Instance accepts_dec c r : Decision (accepts c r).
Proof. unfold accepts, intersects. apply _. Defined.

(** The columns the active steps index. *)
Definition needed_columns (c : FilterCriteria) : gset string :=
  (if selected_techniques c is [] then ∅ else {[ col_techniques ]})
  ∪ (if selected_instruments c is [] then ∅ else {[ col_instruments ]})
  ∪ (if digital_twin_only c then {[ col_cad ]} else ∅)
  ∪ (if pressure_control_required c then {[ col_pressure ]} else ∅)
  ∪ (if high_temp_only c then {[ col_max_temp ]} else ∅).

(** The columns a selection step leaves: none when it is active on a frame
    without rows. *)
Definition selection_columns (selected : list string) (df : DataFrame)
  : gset string :=
  if decide (selected ≠ [] ∧ rows df = []) then ∅ else columns df.

(** The columns the engine leaves: those left by the technique step, unless
    the instrument step is active on what the technique step left without
    rows. *)
Definition engine_columns (df : DataFrame) (c : FilterCriteria) : gset string :=
  if decide (selected_instruments c ≠ []
             ∧ filter (λ r, selected_techniques c = []
                            ∨ intersects (r_techniques r) (selected_techniques c))
                 (rows df) = [])
  then ∅
  else selection_columns (selected_techniques c) df.

(** No selection step runs on a frame without rows: the technique step
    on the frame given, the instrument step on what the technique step
    leaves. *)
Definition regular (df : DataFrame) (c : FilterCriteria) : Prop :=
  (selected_techniques c = [] ∨ rows df ≠ [])
  ∧ (selected_instruments c = []
     ∨ filter (λ r, selected_techniques c = []
                    ∨ intersects (r_techniques r) (selected_techniques c))
         (rows df) ≠ []).

#[global] Instance regular_dec df c : Decision (regular df c).
Proof. unfold regular, intersects. apply _. Defined.

Definition no_criteria : FilterCriteria := {|
  selected_techniques := [];
  selected_instruments := [];
  digital_twin_only := false;
  high_temp_only := false;
  pressure_control_required := false
|}.

(** ** Decidable equality of entries and rows *)

#[global] Instance Compatibility_eq_dec : EqDecision Compatibility.
Proof. solve_decision. Defined.
#[global] Instance DigitalTwin_eq_dec : EqDecision DigitalTwin.
Proof. solve_decision. Defined.
#[global] Instance OperatingLimits_eq_dec : EqDecision OperatingLimits.
Proof. solve_decision. Defined.
#[global] Instance Specifications_eq_dec : EqDecision Specifications.
Proof. solve_decision. Defined.
#[global] Instance ContactInfo_eq_dec : EqDecision ContactInfo.
Proof. solve_decision. Defined.
#[global] Instance Limitations3R_eq_dec : EqDecision Limitations3R.
Proof. solve_decision. Defined.
#[global] Instance HardwareRecord_eq_dec : EqDecision HardwareRecord.
Proof. solve_decision. Defined.
#[global] Instance Row_eq_dec : EqDecision Row.
Proof. solve_decision. Defined.

(** ** Sample registries and criteria, and the predicates of the claims

    The three cells A, B and C are those of the end-to-end scenario. *)

Definition cell (i : string) (ts : list string) (cad : bool) (t : option Temp)
    (p : option bool) : HardwareRecord := {|
  id := i;
  name := i;
  type := "Coin cell";
  compatibility := {| techniques := ts; instruments := [] |};
  digital_twin := {| cad_available := cad |};
  specifications :=
    {| operating_limits := {| max_temp_c := t; pressure_control := p |} |};
  contact_info := None;
  limitations_3r := None
|}.

Definition cell_A : HardwareRecord := cell "A" ["XRD"; "XAS"] true (Some (150 ↾ I)) None.
Definition cell_B : HardwareRecord := cell "B" ["SANS"] false None None.
Definition cell_C : HardwareRecord := cell "C" ["XRD"] false (Some (80 ↾ I)) (Some true).

Definition scenario : list HardwareRecord := [cell_A; cell_B; cell_C].

Definition xrd_only : FilterCriteria := {|
  selected_techniques := ["XRD"];
  selected_instruments := [];
  digital_twin_only := false;
  high_temp_only := false;
  pressure_control_required := false
|}.

Definition xrd_high_temp : FilterCriteria := {|
  selected_techniques := ["XRD"];
  selected_instruments := [];
  digital_twin_only := false;
  high_temp_only := true;
  pressure_control_required := false
|}.

Definition pressure_only : FilterCriteria := {|
  selected_techniques := [];
  selected_instruments := [];
  digital_twin_only := false;
  high_temp_only := false;
  pressure_control_required := true
|}.

Definition high_temp_alone : FilterCriteria := {|
  selected_techniques := [];
  selected_instruments := [];
  digital_twin_only := false;
  high_temp_only := true;
  pressure_control_required := false
|}.

(** The criteria of [c] other than its technique selection. *)
Definition without_techniques (c : FilterCriteria) : FilterCriteria := {|
  selected_techniques := [];
  selected_instruments := selected_instruments c;
  digital_twin_only := digital_twin_only c;
  high_temp_only := high_temp_only c;
  pressure_control_required := pressure_control_required c
|}.

(** The statement of C1 about excluded records, for one registry and one
    choice of criteria. *)
Definition excluded_miss_selection (data : list HardwareRecord)
    (c : FilterCriteria) : Prop :=
  ∀ out e,
    filter_engine (json_normalize data) c = Ok out →
    e ∈ data → flatten e ∉ rows out →
    ¬ intersects (techniques (compatibility e)) (selected_techniques c).

(** The glossary key occurs in the technique name, case aside. *)
Definition key_matches (tech key : string) : Prop :=
  contains (lower key) (lower tech) = true.

(** Case-insensitive containment in the words of the partial-match policy,
    without [lower]: two bytes are the same letter when they are equal or
    one is an uppercase ASCII letter and the other the lowercase letter, 32
    above it; a key occurs in a name when some stretch of the name has the
    length of the key and the same letters, byte for byte. *)
Definition is_upper (a : ascii) : Prop :=
  (65 ≤ N_of_ascii a ≤ 90)%N.

Definition same_letter (a b : ascii) : Prop :=
  a = b
  ∨ (is_upper a ∧ N_of_ascii b = (N_of_ascii a + 32)%N)
  ∨ (is_upper b ∧ N_of_ascii a = (N_of_ascii b + 32)%N).

Definition caseless_occurrence (key tech : string) : Prop :=
  ∃ p m s,
    tech = p +:+ m +:+ s
    ∧ Forall2 same_letter (String.list_ascii_of_string key) (String.list_ascii_of_string m).

(** The file is there, and it is not valid JSON or not a JSON array of
    entries. *)
Definition malformed (doc : Document) : Prop :=
  doc = NotJson ∨ ∃ entry, doc = SingleRecord entry.

(** The loader ended the run: by its handler, or by an exception that
    leaves it. *)
Definition load_fails (doc : Document) : Prop :=
  (∃ message, load_registry doc = Stopped message)
  ∨ (∃ e, load_registry doc = Uncaught e).

(** Two cells of the same name: the first has no CAD model, the second has. *)
Definition twin_1 : HardwareRecord := {|
  id := "T1";
  name := "Twin";
  type := "Coin cell";
  compatibility := {| techniques := ["XRD"]; instruments := [] |};
  digital_twin := {| cad_available := false |};
  specifications :=
    {| operating_limits := {| max_temp_c := None; pressure_control := None |} |};
  contact_info := None;
  limitations_3r := None
|}.

Definition twin_2 : HardwareRecord := {|
  id := "T2";
  name := "Twin";
  type := "Pouch cell";
  compatibility := {| techniques := ["SANS"]; instruments := [] |};
  digital_twin := {| cad_available := true |};
  specifications :=
    {| operating_limits := {| max_temp_c := None; pressure_control := None |} |};
  contact_info := None;
  limitations_3r := None
|}.

Definition cad_only : FilterCriteria := {|
  selected_techniques := [];
  selected_instruments := [];
  digital_twin_only := true;
  high_temp_only := false;
  pressure_control_required := false
|}.

(** A cell whose techniques include one called "Cell". *)
Definition cell_D : HardwareRecord :=
  cell "D" ["Cell"; "XRD"] false (Some (80 ↾ I)) (Some true).

(** ** The rest of the page: sidebar lists, header metrics, table, selector

    [sorted(list(set(...)))] over the instrument lists (script line 63). *)
Definition all_instruments (df : DataFrame) : result (list string) :=
  sublists ← column df col_instruments r_instruments;
  Ok (sorted (remove_dups (concat sublists))).

(** The terms of the sidebar dictionary, [sorted(TECHNIQUE_DEFINITIONS.keys())],
    and the exact lookup [TECHNIQUE_DEFINITIONS[term]] (script lines 76-77). *)
Definition glossary_terms (glossary : list (string * string)) : list string :=
  sorted (glossary.*1).

Fixpoint getitem (glossary : list (string * string)) (term : string)
  : result string :=
  match glossary with
  | [] => Raise (KeyError term)
  | (key, val) :: glossary' =>
      if bool_decide (key = term) then Ok val else getitem glossary' term
  end.

(** The three computed header metrics (script lines 107-109). *)
Record Metrics : Type := {
  cells_found : nat;
  digital_twin_ready : nat;
  high_temp_capable : nat
}.

Definition metrics (filtered_df : DataFrame) : result Metrics :=
  let m1 := length (rows filtered_df) in
  mask ← column filtered_df col_cad (λ r, bool_decide (r_cad_available r = true));
  let m2 := length (rows (loc filtered_df mask)) in
  mask ← column filtered_df col_max_temp
           (λ r, bool_decide (100 ≤ fillna 25 (r_max_temp_c r)));
  let m3 := length (rows (loc filtered_df mask)) in
  Ok {| cells_found := m1; digital_twin_ready := m2; high_temp_capable := m3 |}.

(** The main table, [filtered_df[[...six labels...]]] (script lines 118-122).
    Selecting a list of labels raises [KeyError] when one of them is not a
    column; the argument kept here is the first missing label, where
    pandas words a message that lists the missing ones. *)
Record TableRow : Type := {
  t_name : string;
  t_type : string;
  t_cad_available : bool;
  t_techniques : list string;
  t_max_temp_c : option Z;
  t_primary_email : option string
}.

Definition table_labels : list string :=
  [col_name; col_type; col_cad; col_techniques; col_max_temp; col_email].

Definition table_row (r : Row) : TableRow := {|
  t_name := r_name r;
  t_type := r_type r;
  t_cad_available := r_cad_available r;
  t_techniques := r_techniques r;
  t_max_temp_c := r_max_temp_c r;
  t_primary_email := r_primary_email r
|}.

Definition main_table (filtered_df : DataFrame) : result (list TableRow) :=
  match filter (λ label, label ∉ columns filtered_df) table_labels with
  | [] => Ok (table_row <$> rows filtered_df)
  | label :: _ => Raise (KeyError label)
  end.

(** [Series.unique()]: the distinct values in order of first appearance. *)
Fixpoint unique_from (seen l : list string) : list string :=
  match l with
  | [] => []
  | x :: l' =>
      if bool_decide (x ∈ seen) then unique_from seen l'
      else x :: unique_from (x :: seen) l'
  end.

Definition unique (l : list string) : list string := unique_from [] l.

(** The options and the default of the cell selector (script lines 140-145):
    the distinct names of the filtered frame, and the name of its first row
    unless the frame is empty. *)
Definition cell_selector (filtered_df : DataFrame)
  : result (list string * option (list string)) :=
  names ← column filtered_df col_name r_name;
  Ok (unique names,
      match rows filtered_df with
      | [] => None
      | _ :: _ => (λ first, [first]) <$> head names
      end).

(** The page from the header to the download, in script order, for a loaded
    registry: sidebar lists, filters, metrics, table, selector, cards for the
    given selection ([None]: the selector's default), matrix, download. *)
Record Page : Type := {
  p_techniques : list string;
  p_instruments : list string;
  p_filtered : DataFrame;
  p_metrics : Metrics;
  p_table : list TableRow;
  p_options : list string;
  p_cards : list Card;
  p_matrix : option MatrixFrame;
  p_download : list HardwareRecord
}.

Definition render (raw_json : list HardwareRecord) (c : FilterCriteria)
    (selection : option (list string)) : result Page :=
  let df := json_normalize raw_json in
  techs ← all_techniques df;
  instrs ← all_instruments df;
  filtered_df ← filter_engine df c;
  m ← metrics filtered_df;
  table ← main_table filtered_df;
  selector ← cell_selector filtered_df;
  let selected_cell_names := default (default [] selector.2) selection in
  cards ← comparison raw_json selected_cell_names;
  matrix ← technique_matrix raw_json filtered_df techs;
  download ← filtered_json_download raw_json filtered_df;
  Ok {| p_techniques := techs; p_instruments := instrs;
        p_filtered := filtered_df; p_metrics := m; p_table := table;
        p_options := selector.1; p_cards := cards;
        p_matrix := df_matrix matrix; p_download := download |}.

(** Criteria with a technique selection and nothing else. *)
Definition only_techniques (selected : list string) : FilterCriteria := {|
  selected_techniques := selected;
  selected_instruments := [];
  digital_twin_only := false;
  high_temp_only := false;
  pressure_control_required := false
|}.

(** A cell with a contact address, and a registry that has every column
    the page reads. *)
Definition cell_M : HardwareRecord := {|
  id := "M";
  name := "M";
  type := "Pouch cell";
  compatibility := {| techniques := ["XRD"]; instruments := ["POLARIS"] |};
  digital_twin := {| cad_available := true |};
  specifications :=
    {| operating_limits :=
         {| max_temp_c := Some (120 ↾ I); pressure_control := None |} |};
  contact_info := Some {| primary_email := Some "cells@example.org" |};
  limitations_3r := None
|}.

Definition staffed : list HardwareRecord := [cell_B; cell_M].

(** An earlier entry under the name of [cell_M], without a CAD model. *)
Definition cell_M_draft : HardwareRecord := {|
  id := "M0";
  name := "M";
  type := "Coin cell";
  compatibility := {| techniques := ["XRD"]; instruments := [] |};
  digital_twin := {| cad_available := false |};
  specifications :=
    {| operating_limits := {| max_temp_c := None; pressure_control := None |} |};
  contact_info := None;
  limitations_3r := None
|}.

Definition namesakes : list HardwareRecord := [cell_M_draft; cell_M].

(** Criteria whose technique matches no entry, followed by an instrument
    selection: the instrument step runs on a frame without rows. *)
Definition unmatched_then_instrument : FilterCriteria := {|
  selected_techniques := ["Nope"];
  selected_instruments := ["POLARIS"];
  digital_twin_only := false;
  high_temp_only := false;
  pressure_control_required := false
|}.

(** The statement of C5 about the reload, for one registry and one choice
    of criteria: the frame loaded from the download is the filtered frame. *)
Definition round_trip_holds (data : list HardwareRecord) (c : FilterCriteria)
  : Prop :=
  ∀ out exported df raw_json,
    filter_engine (json_normalize data) c = Ok out →
    filtered_json_download data out = Ok exported →
    load_registry (json_dumps exported) = Loaded df raw_json →
    df = out.

(** * Properties *)

(** ** Basic facts on results and frames *)

Lemma bind_Ok {A B} (m : result A) (f : A → result B) (b : B) :
  m ≫= f = Ok b ↔ ∃ a, m = Ok a ∧ f a = Ok b.
Proof.
  destruct m as [a|e]; simpl.
  - split; [eauto | intros (a' & [= <-] & H); exact H].
  - split; [discriminate | intros (a' & [=] & _)].
Qed.

Lemma frame_eq (df1 df2 : DataFrame) :
  df1 = df2 ↔ columns df1 = columns df2 ∧ rows df1 = rows df2.
Proof.
  split; [intros ->; done |].
  destruct df1, df2; simpl; intros [-> ->]; done.
Qed.

Lemma column_Ok {A} (df : DataFrame) label (cell : Row → A) series :
  column df label cell = Ok series ↔
  label ∈ columns df ∧ series = cell <$> rows df.
Proof.
  unfold column. case_decide; split.
  - intros [= <-]; done.
  - intros [_ ->]; done.
  - discriminate.
  - intros [? _]; done.
Qed.

Lemma column_Raise {A} (df : DataFrame) label (cell : Row → A) :
  label ∉ columns df → column df label cell = Raise (KeyError label).
Proof. intros H. unfold column. case_decide; done. Qed.

Lemma mask_rows_fmap (keep : Row → bool) (l : list Row) :
  mask_rows l (keep <$> l) = filter (λ r, keep r = true) l.
Proof.
  induction l as [|r l IH]; [done |].
  cbn [fmap list_fmap mask_rows]. rewrite filter_cons.
  destruct (keep r) eqn:E; rewrite IH; case_decide; congruence.
Qed.

Lemma filter_fmap_list {A B} (f : A → B) (P : B → Prop) `{!∀ b, Decision (P b)}
    (l : list A) :
  filter P (f <$> l) = f <$> filter (λ a, P (f a)) l.
Proof.
  induction l as [|a l IH]; [done |].
  cbn [fmap list_fmap]. rewrite !filter_cons.
  case_decide; cbn [fmap list_fmap]; rewrite IH; done.
Qed.

Lemma filter_elem_iff {A} (P Q : A → Prop) `{!∀ a, Decision (P a)}
    `{!∀ a, Decision (Q a)} (l : list A) :
  (∀ a, a ∈ l → P a ↔ Q a) → filter P l = filter Q l.
Proof.
  induction l as [|a l IH]; intros Hl; [done |].
  rewrite !filter_cons.
  assert (P a ↔ Q a) as Ha by (apply Hl; left).
  rewrite IH by (intros; apply Hl; right; done).
  do 2 case_decide; tauto.
Qed.

Lemma any_in_intersects (selected x : list string) :
  any_in selected x = true ↔ intersects x selected.
Proof.
  unfold any_in, intersects. rewrite existsb_exists, Exists_exists.
  split; intros (t & Ht & Hs); exists t.
  - apply list_elem_of_In in Ht. apply bool_decide_eq_true in Hs. done.
  - apply list_elem_of_In in Ht. rewrite bool_decide_eq_true. done.
Qed.

Lemma filter_all {A} (P : A → Prop) `{!∀ a, Decision (P a)} (l : list A) :
  (∀ a, P a) → filter P l = l.
Proof.
  intros HP. induction l as [|a l IH]; [done |].
  rewrite filter_cons_True by done. by rewrite IH.
Qed.

Lemma filter_none {A} (P : A → Prop) `{!∀ a, Decision (P a)} (l : list A) :
  (∀ a, a ∈ l → ¬ P a) → filter P l = [].
Proof.
  intros HP. induction l as [|a l IH]; [done |].
  rewrite filter_cons_False by (apply HP; left).
  apply IH. intros b Hb. apply HP. by right.
Qed.

(** ** The filter steps, one by one *)

(** A column indexed, compared and used as a mask. *)
Lemma masked_Ok df label keep (P : Row → Prop) `{!∀ r, Decision (P r)} out :
  (∀ r, keep r = true ↔ P r) →
  column df label keep ≫= (λ mask, Ok (loc df mask)) = Ok out ↔
  label ∈ columns df ∧ columns out = columns df ∧ rows out = filter P (rows df).
Proof.
  intros HP. rewrite bind_Ok. split.
  - intros (mask & Hc & [= <-]). apply column_Ok in Hc as [Hl ->].
    repeat split; [done |]. simpl. rewrite mask_rows_fmap.
    by apply list_filter_iff.
  - intros (Hl & Hc & Hr). exists (keep <$> rows df).
    split; [by apply column_Ok |]. f_equal. apply frame_eq. simpl.
    rewrite mask_rows_fmap, Hr. split; [done |]. by apply list_filter_iff.
Qed.

(** A column indexed and mapped with [.apply], the series used as index. *)
Lemma applied_Ok df label keep (P : Row → Prop) `{!∀ r, Decision (P r)} out :
  (∀ r, keep r = true ↔ P r) →
  column df label keep ≫= (λ series, Ok (loc_applied df series)) = Ok out ↔
  label ∈ columns df
  ∧ columns out = (if decide (rows df = []) then ∅ else columns df)
  ∧ rows out = filter P (rows df).
Proof.
  intros HP. rewrite bind_Ok. unfold loc_applied. split.
  - intros (series & Hc & [= <-]). apply column_Ok in Hc as [Hl ->].
    split; [done |]. destruct (rows df) as [|r l] eqn:E.
    + rewrite decide_True by done. done.
    + rewrite decide_False by done. split; [done |]. cbn [loc rows].
      rewrite E, mask_rows_fmap. by apply list_filter_iff.
  - intros (Hl & Hc & Hr). exists (keep <$> rows df).
    split; [by apply column_Ok |]. f_equal. apply frame_eq.
    destruct (rows df) as [|r l] eqn:E.
    + rewrite decide_True in Hc by done. by rewrite Hc, Hr.
    + rewrite decide_False in Hc by done. cbn [loc rows columns].
      rewrite E, mask_rows_fmap, Hc, Hr. split; [done |].
      by apply list_filter_iff.
Qed.

Lemma skipped_Ok df out :
  Ok df = Ok out ↔ columns out = columns df ∧ rows out = rows df.
Proof.
  split.
  - intros [= <-]; done.
  - intros [? ?]. f_equal. by apply frame_eq.
Qed.

(** The two cases of a flag step: flag set, flag not set. *)
Ltac step_active :=
  lazymatch goal with
  | |- _ ↔ _ ∧ _ ∧ rows _ = filter ?P _ => rewrite (masked_Ok _ _ _ P)
  end.

Ltac step_skipped :=
  lazymatch goal with
  | |- _ ↔ _ ∧ _ ∧ rows _ = filter ?P ?l =>
      rewrite (filter_all P l) by (intros; by left);
      rewrite skipped_Ok; intuition
  end.

Lemma step_techniques_Ok selected df out :
  step_techniques selected df = Ok out ↔
  (selected = [] ∨ col_techniques ∈ columns df)
  ∧ columns out = selection_columns selected df
  ∧ rows out
    = filter (λ r, selected = [] ∨ intersects (r_techniques r) selected) (rows df).
Proof.
  unfold selection_columns.
  destruct selected as [|t sel]; cbn [step_techniques].
  - rewrite decide_False by (by intros [? _]). step_skipped.
  - rewrite (applied_Ok _ _ _
               (λ r, t :: sel = [] ∨ intersects (r_techniques r) (t :: sel))).
    + destruct (decide (rows df = [])) as [E|E].
      * rewrite decide_True by done. intuition congruence.
      * rewrite decide_False by (by intros [_ ?]). intuition congruence.
    + intros r. rewrite any_in_intersects. intuition congruence.
Qed.

Lemma step_instruments_Ok selected df out :
  step_instruments selected df = Ok out ↔
  (selected = [] ∨ col_instruments ∈ columns df)
  ∧ columns out = selection_columns selected df
  ∧ rows out
    = filter (λ r, selected = [] ∨ intersects (r_instruments r) selected) (rows df).
Proof.
  unfold selection_columns.
  destruct selected as [|t sel]; cbn [step_instruments].
  - rewrite decide_False by (by intros [? _]). step_skipped.
  - rewrite (applied_Ok _ _ _
               (λ r, t :: sel = [] ∨ intersects (r_instruments r) (t :: sel))).
    + destruct (decide (rows df = [])) as [E|E].
      * rewrite decide_True by done. intuition congruence.
      * rewrite decide_False by (by intros [_ ?]). intuition congruence.
    + intros r. rewrite any_in_intersects. intuition congruence.
Qed.

Lemma step_digital_twin_Ok flag df out :
  step_digital_twin flag df = Ok out ↔
  (flag = false ∨ col_cad ∈ columns df)
  ∧ columns out = columns df
  ∧ rows out = filter (λ r, flag = false ∨ r_cad_available r = true) (rows df).
Proof.
  destruct flag; cbn [step_digital_twin].
  - step_active; [intuition congruence |].
    intros r. rewrite bool_decide_eq_true. intuition congruence.
  - step_skipped.
Qed.

Lemma step_pressure_Ok flag df out :
  step_pressure flag df = Ok out ↔
  (flag = false ∨ col_pressure ∈ columns df)
  ∧ columns out = columns df
  ∧ rows out
    = filter (λ r, flag = false ∨ default false (r_pressure_control r) = true)
        (rows df).
Proof.
  destruct flag; cbn [step_pressure].
  - step_active; [intuition congruence |].
    intros r. destruct (r_pressure_control r) as [[]|]; simpl; intuition congruence.
  - step_skipped.
Qed.

Lemma step_high_temp_Ok flag df out :
  step_high_temp flag df = Ok out ↔
  (flag = false ∨ col_max_temp ∈ columns df)
  ∧ columns out = columns df
  ∧ rows out
    = filter (λ r, flag = false ∨ 100 ≤ default 25 (r_max_temp_c r)) (rows df).
Proof.
  destruct flag; cbn [step_high_temp].
  - step_active; [intuition congruence |].
    intros r. rewrite bool_decide_eq_true. unfold fillna. intuition congruence.
  - step_skipped.
Qed.

Lemma flag_label_subseteq (flag : bool) (label : string) (cols : gset string) :
  (if flag then {[ label ]} else ∅) ⊆ cols ↔ flag = false ∨ label ∈ cols.
Proof.
  destruct flag.
  - rewrite singleton_subseteq_l. intuition congruence.
  - split; [by left | intros _; apply empty_subseteq].
Qed.

Lemma selection_label_subseteq (selected : list string) (label : string)
    (cols : gset string) :
  (if selected is [] then ∅ else {[ label ]}) ⊆ cols ↔
  selected = [] ∨ label ∈ cols.
Proof.
  destruct selected.
  - split; [by left | intros _; apply empty_subseteq].
  - rewrite singleton_subseteq_l. intuition congruence.
Qed.

Lemma needed_columns_spec c (cols : gset string) :
  needed_columns c ⊆ cols ↔
  (selected_techniques c = [] ∨ col_techniques ∈ cols)
  ∧ (selected_instruments c = [] ∨ col_instruments ∈ cols)
  ∧ (digital_twin_only c = false ∨ col_cad ∈ cols)
  ∧ (pressure_control_required c = false ∨ col_pressure ∈ cols)
  ∧ (high_temp_only c = false ∨ col_max_temp ∈ cols).
Proof.
  unfold needed_columns.
  rewrite !union_subseteq, !flag_label_subseteq, !selection_label_subseteq.
  tauto.
Qed.

(** The engine as a whole: it returns exactly when the frame has the
    columns of the active steps, and then keeps the accepted rows. *)
(** The engine on any frame: which columns each step needs, which columns
    and rows it leaves. *)
Lemma filter_engine_Ok_gen df c out :
  filter_engine df c = Ok out ↔
  (selected_techniques c = [] ∨ col_techniques ∈ columns df)
  ∧ (selected_instruments c = []
     ∨ col_instruments ∈ selection_columns (selected_techniques c) df)
  ∧ (digital_twin_only c = false ∨ col_cad ∈ engine_columns df c)
  ∧ (pressure_control_required c = false ∨ col_pressure ∈ engine_columns df c)
  ∧ (high_temp_only c = false ∨ col_max_temp ∈ engine_columns df c)
  ∧ columns out = engine_columns df c
  ∧ rows out = filter (accepts c) (rows df).
Proof.
  set (P1 := λ r, selected_techniques c = []
                  ∨ intersects (r_techniques r) (selected_techniques c)).
  set (P2 := λ r, selected_instruments c = []
                  ∨ intersects (r_instruments r) (selected_instruments c)).
  set (P3 := λ r, digital_twin_only c = false ∨ r_cad_available r = true).
  set (P4 := λ r, pressure_control_required c = false
                  ∨ default false (r_pressure_control r) = true).
  assert (∀ d1, columns d1 = selection_columns (selected_techniques c) df →
                rows d1 = filter P1 (rows df) →
                selection_columns (selected_instruments c) d1
                = engine_columns df c) as Hcols.
  { intros d1 C1 R1. unfold engine_columns, selection_columns at 1.
    fold P1. rewrite R1, C1.
    destruct (decide (selected_instruments c ≠ [] ∧ filter P1 (rows df) = []));
      done. }
  unfold filter_engine. split.
  - intros H.
    apply bind_Ok in H as (d1 & H1 & H).
    apply bind_Ok in H as (d2 & H2 & H).
    apply bind_Ok in H as (d3 & H3 & H).
    apply bind_Ok in H as (d4 & H4 & H5).
    apply step_techniques_Ok in H1 as (N1 & C1 & R1).
    apply step_instruments_Ok in H2 as (N2 & C2 & R2).
    apply step_digital_twin_Ok in H3 as (N3 & C3 & R3).
    apply step_pressure_Ok in H4 as (N4 & C4 & R4).
    apply step_high_temp_Ok in H5 as (N5 & C5 & R5).
    rewrite (Hcols d1 C1 R1) in C2.
    rewrite C4, C3, C2 in N5. rewrite C3, C2 in N4. rewrite C2 in N3.
    rewrite C1 in N2.
    repeat split; try done; [congruence |].
    rewrite R5, R4, R3, R2, R1, !list_filter_filter.
    apply list_filter_iff. intros r. unfold accepts. tauto.
  - intros (N1 & N2 & N3 & N4 & N5 & Hc & Hr).
    set (d1 := {| columns := selection_columns (selected_techniques c) df;
                  rows := filter P1 (rows df) |}).
    apply bind_Ok. exists d1.
    split; [by apply step_techniques_Ok |].
    apply bind_Ok.
    exists {| columns := engine_columns df c;
              rows := filter P2 (filter P1 (rows df)) |}.
    split.
    { apply step_instruments_Ok. split; [done |].
      split; [| done]. symmetry. by apply Hcols. }
    apply bind_Ok.
    exists {| columns := engine_columns df c;
              rows := filter P3 (filter P2 (filter P1 (rows df))) |}.
    split; [by apply step_digital_twin_Ok |].
    apply bind_Ok.
    exists {| columns := engine_columns df c;
              rows := filter P4 (filter P3 (filter P2 (filter P1 (rows df)))) |}.
    split; [by apply step_pressure_Ok |].
    apply step_high_temp_Ok. repeat split; [done .. |].
    cbn [rows]. rewrite Hr, !list_filter_filter. apply list_filter_iff.
    intros r. unfold accepts, P1, P2, P3, P4. tauto.
Qed.

Lemma engine_columns_regular df c :
  regular df c →
  selection_columns (selected_techniques c) df = columns df
  ∧ engine_columns df c = columns df.
Proof.
  intros [R1 R2]. unfold engine_columns, selection_columns.
  assert (¬ (selected_techniques c ≠ [] ∧ rows df = [])) as N1
    by (intros [? ?]; by destruct R1).
  destruct (decide (selected_instruments c ≠ [] ∧ _)) as [[H1 H2]|_];
    [by destruct R2 |].
  by rewrite decide_False.
Qed.

Lemma engine_columns_collapsed df c :
  ¬ regular df c → engine_columns df c = ∅.
Proof.
  intros Hn. unfold engine_columns, selection_columns.
  destruct (decide (selected_instruments c ≠ [] ∧ _)) as [?|H2]; [done |].
  destruct (decide (selected_techniques c ≠ [] ∧ _)) as [?|H1]; [done |].
  exfalso. apply Hn. split.
  - destruct (decide (selected_techniques c = [])); [by left | right].
    intros E. apply H1. done.
  - destruct (decide (selected_instruments c = [])); [by left | right].
    intros E. apply H2. done.
Qed.

Lemma engine_columns_subseteq df c :
  selection_columns (selected_techniques c) df ⊆ columns df
  ∧ engine_columns df c ⊆ columns df.
Proof.
  unfold engine_columns, selection_columns.
  repeat case_decide; split; set_solver.
Qed.

Lemma collapsed_rows df c :
  ¬ regular df c → filter (accepts c) (rows df) = [].
Proof.
  intros Hn. apply filter_none. intros r Hr (A1 & _). apply Hn. split.
  - destruct (decide (selected_techniques c = [])); [by left | right].
    intros E. rewrite E in Hr. by apply elem_of_nil in Hr.
  - destruct (decide (selected_instruments c = [])); [by left | right].
    intros E.
    assert (r ∈ filter (λ r, selected_techniques c = []
                             ∨ intersects (r_techniques r) (selected_techniques c))
                  (rows df)) as Hin by (by apply list_elem_of_filter).
    rewrite E in Hin. by apply elem_of_nil in Hin.
Qed.

(** Whenever the engine returns: the rows are the accepted ones, the columns
    of the active steps were there, and the output has the columns of the
    input, or none if a selection step ran on a frame without rows. *)
Lemma filter_engine_rows df c out :
  filter_engine df c = Ok out →
  needed_columns c ⊆ columns df
  ∧ (columns out = columns df ∨ (¬ regular df c ∧ columns out = ∅ ∧ rows out = []))
  ∧ rows out = filter (accepts c) (rows df).
Proof.
  intros Hf. apply filter_engine_Ok_gen in Hf as (N1 & N2 & N3 & N4 & N5 & Hc & Hr).
  destruct (engine_columns_subseteq df c) as [S1 S2].
  split; [| split; [| done]].
  - apply needed_columns_spec. repeat split.
    + done.
    + destruct N2 as [?|?]; [by left | right; by apply S1].
    + destruct N3 as [?|?]; [by left | right; by apply S2].
    + destruct N4 as [?|?]; [by left | right; by apply S2].
    + destruct N5 as [?|?]; [by left | right; by apply S2].
  - destruct (decide (regular df c)) as [Hreg|Hn].
    + left. rewrite Hc. by apply engine_columns_regular.
    + right. split; [done |]. split.
      * rewrite Hc. by apply engine_columns_collapsed.
      * rewrite Hr. by apply collapsed_rows.
Qed.

(** The engine when no selection step runs on a frame without rows: it
    returns exactly when the frame has the columns of the active steps, and
    then keeps the columns and the accepted rows. *)
Lemma filter_engine_Ok df c out :
  regular df c →
  filter_engine df c = Ok out ↔
  needed_columns c ⊆ columns df
  ∧ columns out = columns df
  ∧ rows out = filter (accepts c) (rows df).
Proof.
  intros Hreg. rewrite filter_engine_Ok_gen, needed_columns_spec.
  destruct (engine_columns_regular df c Hreg) as [-> ->]. tauto.
Qed.

(** The engine when a selection step runs on a frame without rows: the
    frame loses its columns, so the engine returns only if no later step
    indexes one, and then returns the frame without columns and rows. *)
Lemma filter_engine_collapsed df c out :
  ¬ regular df c →
  filter_engine df c = Ok out ↔
  needed_columns c ⊆ columns df
  ∧ (selected_instruments c = [] ∨ selected_techniques c = [] ∨ rows df ≠ [])
  ∧ digital_twin_only c = false
  ∧ pressure_control_required c = false
  ∧ high_temp_only c = false
  ∧ columns out = ∅
  ∧ rows out = [].
Proof.
  intros Hn. rewrite filter_engine_Ok_gen, needed_columns_spec.
  rewrite (engine_columns_collapsed df c Hn), (collapsed_rows df c Hn).
  unfold selection_columns.
  assert (∀ label : string, label ∈ (∅ : gset string) → False) as Hempty
    by (intros label; apply not_elem_of_empty).
  destruct (decide (selected_techniques c ≠ [] ∧ rows df = [])) as [[E1 E2]|E1].
  - split.
    + intros (N1 & N2 & N3 & N4 & N5 & Hc & Hr).
      destruct N1 as [N1|N1]; [done |].
      destruct N2 as [N2|N2]; [| by apply Hempty in N2].
      destruct N3 as [N3|N3]; [| by apply Hempty in N3].
      destruct N4 as [N4|N4]; [| by apply Hempty in N4].
      destruct N5 as [N5|N5]; [| by apply Hempty in N5].
      repeat split; try done; try (by left). by right.
    + intros ((N1 & N2 & _) & N & F3 & F4 & F5 & Hc & Hr).
      destruct N as [N|[N|N]]; [| done | done].
      repeat split; try done; by left.
  - split.
    + intros (N1 & N2 & N3 & N4 & N5 & Hc & Hr).
      destruct N3 as [N3|N3]; [| by apply Hempty in N3].
      destruct N4 as [N4|N4]; [| by apply Hempty in N4].
      destruct N5 as [N5|N5]; [| by apply Hempty in N5].
      repeat split; try done; try (by left).
      destruct (decide (selected_techniques c = [])); [right; by left |].
      right. right. intros E. by apply E1.
    + intros ((N1 & N2 & _) & _ & F3 & F4 & F5 & Hc & Hr).
      repeat split; try done; by left.
Qed.

Lemma filter_engine_Raise df c :
  needed_columns c ⊈ columns df → ∃ e, filter_engine df c = Raise e.
Proof.
  intros Hn. destruct (filter_engine df c) as [out|e] eqn:E; [| by exists e].
  apply filter_engine_rows in E as [? _]. done.
Qed.

(** ** Which columns a registry gives its frame *)

Lemma elem_of_labels_if {A} (o : option A) (label x : string) :
  x ∈ labels_if o label ↔ is_Some o ∧ x = label.
Proof.
  destruct o; simpl.
  - rewrite elem_of_singleton. split; [intros ->; eauto | intros [_ ->]; done].
  - rewrite elem_of_empty. split; [done | intros [[? [=]] _]].
Qed.

Lemma elem_of_columns_json_normalize data (x : string) :
  x ∈ columns (json_normalize data) ↔ ∃ e, e ∈ data ∧ x ∈ record_columns e.
Proof.
  cbn [json_normalize columns]. rewrite elem_of_union_list. split.
  - intros (X & HX & Hx). apply list_elem_of_fmap in HX as (e & -> & He). eauto.
  - intros (e & He & Hx). exists (record_columns e). split; [| done].
    apply list_elem_of_fmap. eauto.
Qed.

Lemma elem_of_required_columns (x : string) :
  x ∈ required_columns ↔
  x = col_id ∨ x = col_name ∨ x = col_type ∨ x = col_techniques
  ∨ x = col_instruments ∨ x = col_cad.
Proof.
  unfold required_columns. rewrite !elem_of_union, !elem_of_singleton. tauto.
Qed.

Lemma col_pressure_json_normalize data :
  col_pressure ∈ columns (json_normalize data) ↔
  ∃ e, e ∈ data ∧ is_Some (pressure_control (operating_limits (specifications e))).
Proof.
  rewrite elem_of_columns_json_normalize. apply exist_proper. intros e.
  unfold record_columns.
  rewrite !elem_of_union, !elem_of_labels_if, elem_of_required_columns.
  cbn [flatten r_pressure_control r_max_temp_c r_primary_email].
  split; [| tauto]. intros [He H]. split; [done |].
  destruct H as [[[H|[_ [=]]]|[? _]]|[_ [=]]]; [| done].
  destruct H as [[=]|[[=]|[[=]|[[=]|[[=]|[=]]]]]].
Qed.

Lemma col_max_temp_json_normalize data :
  col_max_temp ∈ columns (json_normalize data) ↔
  ∃ e, e ∈ data ∧ is_Some (max_temp_c (operating_limits (specifications e))).
Proof.
  rewrite elem_of_columns_json_normalize. apply exist_proper. intros e.
  unfold record_columns.
  rewrite !elem_of_union, !elem_of_labels_if, elem_of_required_columns.
  cbn [flatten r_pressure_control r_max_temp_c r_primary_email].
  rewrite fmap_is_Some.
  split; [| tauto]. intros [He H]. split; [done |].
  destruct H as [[[H|[? _]]|[_ [=]]]|[_ [=]]]; [| done].
  destruct H as [[=]|[[=]|[[=]|[[=]|[[=]|[=]]]]]].
Qed.

Lemma required_columns_json_normalize data (label : string) :
  label ∈ required_columns →
  label ∈ columns (json_normalize data) ↔ data ≠ [].
Proof.
  intros Hl. rewrite elem_of_columns_json_normalize. split.
  - intros (e & He & _) ->. by apply elem_of_nil in He.
  - destruct data as [|e data]; [done |]. intros _. exists e.
    split; [left |]. unfold record_columns. rewrite !elem_of_union. tauto.
Qed.

(** Selections drawn from the sidebar's technique list never make a
    selection step run on a frame without rows. *)
Lemma offered_selection_regular data c :
  data ≠ [] →
  (∀ t, t ∈ selected_techniques c →
        ∃ e, e ∈ data ∧ t ∈ techniques (compatibility e)) →
  regular (json_normalize data) c.
Proof.
  intros Hne Hoff. destruct data as [|e0 data]; [done |]. split.
  - right. done.
  - right. destruct (selected_techniques c) as [|t sel] eqn:E.
    + cbn [json_normalize rows fmap list_fmap].
      rewrite filter_cons_True by (by left). done.
    + destruct (Hoff t) as (e & He & Ht); [left |].
      intros Hnil.
      assert (flatten e ∈ filter (λ r, t :: sel = []
                                       ∨ intersects (r_techniques r) (t :: sel))
                (rows (json_normalize (e0 :: data)))) as Hin.
      { apply list_elem_of_filter. split.
        - right. apply Exists_exists. exists t. split; [done | left].
        - apply list_elem_of_fmap. by exists e. }
      rewrite Hnil in Hin. by apply elem_of_nil in Hin.
Qed.

Example scenario_xrd :
  filter_engine (json_normalize scenario) xrd_only
  = Ok {| columns := columns (json_normalize scenario);
          rows := [flatten cell_A; flatten cell_C] |}.
Proof. vm_compute. reflexivity. Qed.

Example scenario_xrd_high_temp :
  filter_engine (json_normalize scenario) xrd_high_temp
  = Ok {| columns := columns (json_normalize scenario);
          rows := [flatten cell_A] |}.
Proof. vm_compute. reflexivity. Qed.

(** ** Claims on the filter engine *)

(** C1, as stated, fails: with technique XRD selected and the
    high-temperature box ticked, cell C of the scenario is excluded from the
    output although its techniques contain XRD. *)
Lemma excluded_miss_selection_counterexample :
  selected_techniques xrd_high_temp ≠ []
  ∧ ¬ excluded_miss_selection scenario xrd_high_temp.
Proof.
  split; [done |]. intros H.
  apply (H _ cell_C scenario_xrd_high_temp).
  - unfold scenario. set_solver.
  - cbn [rows]. intros Hin. apply list_elem_of_singleton in Hin. discriminate.
  - left. left.
Qed.

(** C1 (amended): for a non-empty technique selection S, every row of the
    output has a technique set meeting S; a record excluded from the output
    misses S provided it satisfies the other criteria, so that every
    excluded record misses S when S is the only active criterion. *)
Theorem technique_selection_filter data c out :
  selected_techniques c ≠ [] →
  filter_engine (json_normalize data) c = Ok out →
  (∀ r, r ∈ rows out → intersects (r_techniques r) (selected_techniques c))
  ∧ (∀ e, e ∈ data → flatten e ∉ rows out →
       accepts (without_techniques c) (flatten e) →
       ¬ intersects (techniques (compatibility e)) (selected_techniques c))
  ∧ (selected_instruments c = [] → digital_twin_only c = false →
     pressure_control_required c = false → high_temp_only c = false →
     ∀ e, e ∈ data → flatten e ∉ rows out →
       ¬ intersects (techniques (compatibility e)) (selected_techniques c)).
Proof.
  intros HS Hf. apply filter_engine_rows in Hf as (_ & _ & Hr).
  assert (∀ e, e ∈ data → flatten e ∉ rows out →
            accepts (without_techniques c) (flatten e) →
            ¬ intersects (techniques (compatibility e)) (selected_techniques c))
    as Hexcl.
  { intros e He Hout (_ & A2 & A3 & A4 & A5) Hi. apply Hout. rewrite Hr.
    apply list_elem_of_filter. split.
    - repeat split; try done. by right.
    - cbn [json_normalize rows]. apply list_elem_of_fmap. eauto. }
  split; [| split; [exact Hexcl |]].
  - intros r Hin. rewrite Hr in Hin.
    apply list_elem_of_filter in Hin as [([?|?] & _) _]; done.
  - intros E2 E3 E4 E5 e He Hout. apply Hexcl; [done .. |].
    unfold accepts. cbn. rewrite E2, E3, E4, E5. tauto.
Qed.

Lemma technique_selection_filter_witness :
  (selected_techniques xrd_only ≠ []
   ∧ filter_engine (json_normalize scenario) xrd_only
     = Ok {| columns := columns (json_normalize scenario);
             rows := [flatten cell_A; flatten cell_C] |})
  ∧ ∀ e, e ∈ scenario →
      flatten e ∉ [flatten cell_A; flatten cell_C] →
      ¬ intersects (techniques (compatibility e)) ["XRD"].
Proof.
  split; [split; [done | exact scenario_xrd] |].
  apply (technique_selection_filter scenario xrd_only _ ltac:(done) scenario_xrd);
    reflexivity.
Defined.

(** C2: with both selections empty and the three flags false, the engine
    returns the frame it was given, whatever the registry. *)
Theorem no_criteria_returns_full_set (data : list HardwareRecord) :
  filter_engine (json_normalize data) no_criteria = Ok (json_normalize data)
  ∧ ∀ df, filter_engine df no_criteria = Ok df.
Proof. split; reflexivity. Qed.

(** C3: whenever the engine returns, its output has the rows accepted by
    all five steps at once, in their original order, a sublist of the input
    rows; a step whose criterion is empty or false hands its frame on
    unchanged.  When no selection step runs on a frame without rows the
    engine returns exactly when the frame has the columns its active steps
    index, and keeps the columns.  When one does, that step drops every
    column: the engine returns only if no later step is active, and then
    returns a frame without columns and rows. *)
Theorem filter_engine_composition (df : DataFrame) (c : FilterCriteria) :
  (∀ out, filter_engine df c = Ok out →
     rows out = filter (accepts c) (rows df)
     ∧ needed_columns c ⊆ columns df
     ∧ columns out = engine_columns df c)
  ∧ (regular df c →
     ∀ out, filter_engine df c = Ok out ↔
       needed_columns c ⊆ columns df
       ∧ columns out = columns df
       ∧ rows out = filter (accepts c) (rows df))
  ∧ (¬ regular df c →
     ∀ out, filter_engine df c = Ok out ↔
       needed_columns c ⊆ columns df
       ∧ (selected_instruments c = [] ∨ selected_techniques c = []
          ∨ rows df ≠ [])
       ∧ digital_twin_only c = false
       ∧ pressure_control_required c = false
       ∧ high_temp_only c = false
       ∧ columns out = ∅
       ∧ rows out = [])
  ∧ filter (accepts c) (rows df) `sublist_of` rows df
  ∧ (∀ r, r ∈ filter (accepts c) (rows df) ↔ accepts c r ∧ r ∈ rows df)
  ∧ step_techniques [] df = Ok df
  ∧ step_instruments [] df = Ok df
  ∧ step_digital_twin false df = Ok df
  ∧ step_pressure false df = Ok df
  ∧ step_high_temp false df = Ok df.
Proof.
  split.
  { intros out Hf. pose proof Hf as Hf'.
    apply filter_engine_rows in Hf as (Hn & _ & Hr).
    apply filter_engine_Ok_gen in Hf' as (_ & _ & _ & _ & _ & Hc & _). done. }
  split; [intros Hreg out; by apply filter_engine_Ok |].
  split; [intros Hn out; by apply filter_engine_collapsed |].
  split; [apply sublist_filter |].
  split; [intros r; apply list_elem_of_filter |].
  repeat split.
Qed.

(** A selection step on a frame without rows: a technique that no row of
    the staffed registry lists, then an instrument. *)
Example collapsed_frame :
  filter_engine (json_normalize staffed)
    {| selected_techniques := ["Nope"]; selected_instruments := ["POLARIS"];
       digital_twin_only := false; high_temp_only := false;
       pressure_control_required := false |}
  = Ok {| columns := ∅; rows := [] |}
  ∧ filter_engine (json_normalize staffed)
      {| selected_techniques := ["Nope"]; selected_instruments := ["POLARIS"];
         digital_twin_only := true; high_temp_only := false;
         pressure_control_required := false |}
    = Raise (KeyError "digital_twin.cad_available")
  ∧ filter_engine (json_normalize staffed)
      {| selected_techniques := ["Nope"]; selected_instruments := [];
         digital_twin_only := true; high_temp_only := false;
         pressure_control_required := false |}
    = Ok {| columns := columns (json_normalize staffed); rows := [] |}.
Proof. repeat split; vm_compute; reflexivity. Qed.

(** An output with rows comes from a run in which no selection step met a
    frame without rows, and filtering it again is such a run as well. *)
Lemma regular_of_rows df c out :
  filter_engine df c = Ok out →
  rows out ≠ [] →
  regular df c ∧ regular out c.
Proof.
  intros Hf Hne. apply filter_engine_rows in Hf as (_ & _ & Hr). split.
  - destruct (decide (regular df c)) as [Hreg | Hreg]; [done |].
    apply collapsed_rows in Hreg. congruence.
  - split; right; [done |].
    destruct (rows out) as [|r rs] eqn:E; [done |].
    assert (r ∈ filter (accepts c) (rows df)) as Hin by (rewrite <- Hr; left).
    apply list_elem_of_filter in Hin as [(A1 & _) _].
    rewrite filter_cons_True by done. done.
Qed.

(** The columns of an output: those of the input when no selection step
    met a frame without rows, none otherwise. *)
Lemma filtered_columns df c out :
  filter_engine df c = Ok out →
  ∀ label, label ∈ columns out ↔ regular df c ∧ label ∈ columns df.
Proof.
  intros Hf label. destruct (decide (regular df c)) as [Hreg | Hreg].
  - apply (filter_engine_Ok _ _ _ Hreg) in Hf as (_ & -> & _). tauto.
  - apply (filter_engine_collapsed _ _ _ Hreg) in Hf
      as (_ & _ & _ & _ & _ & -> & _).
    split; [intros H; by apply elem_of_empty in H | tauto].
Qed.

(** Whenever the engine returns, the defaults decide: a row without
    [max_temp_c] counts as 25 degrees and a row without [pressure_control]
    as false. *)
Lemma defaults_decide df c out :
  filter_engine df c = Ok out →
  (high_temp_only c = true →
   ∀ r, r ∈ rows df → (r ∈ rows out → ∃ t, r_max_temp_c r = Some t ∧ 100 ≤ t)
                      ∧ (r_max_temp_c r = None → r ∉ rows out))
  ∧ (pressure_control_required c = true →
     ∀ r, r ∈ rows df → (r ∈ rows out → r_pressure_control r = Some true)
                        ∧ (r_pressure_control r = None → r ∉ rows out)).
Proof.
  intros Hf. apply filter_engine_rows in Hf as (_ & _ & Hr). rewrite Hr.
  split; intros Hflag r _.
  - assert (r ∈ filter (accepts c) (rows df) →
            ∃ t, r_max_temp_c r = Some t ∧ 100 ≤ t) as Hin.
    { intros Hin. apply list_elem_of_filter in Hin as [(_ & _ & _ & _ & H) _].
      destruct H as [H|H]; [congruence |].
      destruct (r_max_temp_c r) as [t|]; simpl in H; [eauto | lia]. }
    split; [done |]. intros Hn Hr'. destruct (Hin Hr') as (t & Ht & _). congruence.
  - assert (r ∈ filter (accepts c) (rows df) → r_pressure_control r = Some true)
      as Hin.
    { intros Hin. apply list_elem_of_filter in Hin as [(_ & _ & _ & H & _) _].
      destruct H as [H|H]; [congruence |].
      destruct (r_pressure_control r) as [[]|]; simpl in H; congruence. }
    split; [done |]. intros Hn Hr'. rewrite (Hin Hr') in Hn. discriminate.
Qed.

(** A flag set on a registry in which no entry carries the field: the frame
    has no such column and indexing it raises. *)
Lemma pressure_flag_without_column data c :
  selected_techniques c = [] → selected_instruments c = [] →
  digital_twin_only c = false → pressure_control_required c = true →
  (∀ e, e ∈ data → pressure_control (operating_limits (specifications e)) = None) →
  filter_engine (json_normalize data) c = Raise (KeyError col_pressure).
Proof.
  intros E1 E2 E3 E4 Hnone. unfold filter_engine. rewrite E1, E2, E3, E4.
  cbn. rewrite column_Raise; [done |].
  rewrite col_pressure_json_normalize. intros (e & He & [b Hb]).
  rewrite (Hnone e He) in Hb. discriminate.
Qed.

(** C4, the defect: the default for an absent field is applied to the cells
    of a column, so it needs the column.  In the scenario restricted to
    cells A and B no entry has [pressure_control]; ticking the pressure box
    raises [KeyError] instead of excluding both.  In the one-cell registry B
    no entry has [max_temp_c]; ticking the high-temperature box raises
    [KeyError] instead of excluding B. *)
Theorem absent_field_in_every_entry_raises :
  filter_engine (json_normalize [cell_A; cell_B]) pressure_only
  = Raise (KeyError "specifications.operating_limits.pressure_control")
  ∧ filter_engine (json_normalize [cell_B]) high_temp_alone
    = Raise (KeyError "specifications.operating_limits.max_temp_c")
  ∧ filter_engine (json_normalize scenario) pressure_only
    = Ok {| columns := columns (json_normalize scenario);
            rows := [flatten cell_C] |}.
Proof. repeat split; vm_compute; reflexivity. Qed.

(** ** The download and its reload *)

Lemma NoDup_fmap_eq {A B} (f : A → B) (l : list A) (x y : A) :
  NoDup (f <$> l) → x ∈ l → y ∈ l → f x = f y → x = y.
Proof.
  induction l as [|a l IH]; intros Hnd Hx Hy Hf; [by apply elem_of_nil in Hx |].
  cbn [fmap list_fmap] in Hnd. apply NoDup_cons in Hnd as [Ha Hnd].
  apply elem_of_cons in Hx as [->|Hx]; apply elem_of_cons in Hy as [->|Hy].
  - done.
  - exfalso. apply Ha. rewrite Hf. apply list_elem_of_fmap. eauto.
  - exfalso. apply Ha. rewrite <- Hf. apply list_elem_of_fmap. eauto.
  - by apply IH.
Qed.

(** Selecting the entries by the ids of the kept rows gives back the
    entries whose rows were kept, when ids identify entries. *)
Lemma select_by_visible_ids (P : Row → Prop) `{!∀ r, Decision (P r)}
    (data : list HardwareRecord) :
  NoDup (id <$> data) →
  filter (λ entry, id entry ∈ r_id <$> filter P (flatten <$> data)) data
  = filter (λ entry, P (flatten entry)) data.
Proof.
  intros Hnd. apply filter_elem_iff. intros e He. split.
  - intros Hin. apply list_elem_of_fmap in Hin as (r & Hid & Hr).
    apply list_elem_of_filter in Hr as [HP Hr].
    apply list_elem_of_fmap in Hr as (e' & -> & He').
    assert (e = e') as -> by (by apply (NoDup_fmap_eq id data)).
    done.
  - intros HP. apply list_elem_of_fmap. exists (flatten e). split; [done |].
    apply list_elem_of_filter. split; [done |]. apply list_elem_of_fmap. eauto.
Qed.

(** The script cannot reach the download with an empty registry: its frame
    has no column, and line 59 already raises. *)
Example all_techniques_empty_registry :
  all_techniques (json_normalize []) = Raise (KeyError "compatibility.techniques").
Proof. reflexivity. Qed.

(** C5, as stated, fails: in the scenario with technique XRD and the
    high-temperature box, the filtered frame keeps the column
    [pressure_control] that cell C gave the full frame, while the frame
    loaded from the download, which holds cell A alone, has no such
    column: the two frames differ. *)
Lemma round_trip_counterexample :
  NoDup (id <$> scenario) ∧ ¬ round_trip_holds scenario xrd_high_temp.
Proof.
  split; [apply (bool_decide_unpack _); vm_compute; exact I |].
  intros H.
  specialize (H _ [cell_A] (json_normalize [cell_A]) (RawList [cell_A])
                scenario_xrd_high_temp).
  assert (col_pressure ∈ columns (json_normalize [cell_A])) as Hin.
  { rewrite H; [| vm_compute; reflexivity | reflexivity]. cbn [columns].
    apply col_pressure_json_normalize. exists cell_C.
    split; [do 2 right; left | by eexists]. }
  apply col_pressure_json_normalize in Hin as (e & He & Hp).
  apply list_elem_of_singleton in He as ->. by destruct Hp.
Qed.

(** C5 (amended): for a registry with unique ids, and criteria under which
    no selection step runs on a frame without rows, the download holds
    exactly the original entries whose id is among the ids of the filtered
    rows, each entry as it stands in the registry and in registry order;
    loading the downloaded document gives a frame with the rows of the
    filtered frame, and with the columns that some downloaded entry
    carries, which are columns of the filtered frame. *)
Theorem export_round_trip data c out :
  NoDup (id <$> data) →
  data ≠ [] →
  regular (json_normalize data) c →
  filter_engine (json_normalize data) c = Ok out →
  ∃ exported,
    filtered_json_download data out = Ok exported
    ∧ (∀ e, e ∈ exported ↔ e ∈ data ∧ id e ∈ r_id <$> rows out)
    ∧ exported `sublist_of` data
    ∧ ∃ df, load_registry (json_dumps exported) = Loaded df (RawList exported)
            ∧ rows df = rows out
            ∧ columns df ⊆ columns out
            ∧ ∀ label, label ∈ columns df
                       ↔ ∃ e, e ∈ exported ∧ label ∈ record_columns e.
Proof.
  intros Hnd Hne Hreg Hf.
  apply (filter_engine_Ok _ _ _ Hreg) in Hf as (_ & Hc & Hr).
  exists (filter (λ entry, id entry ∈ r_id <$> rows out) data).
  split; [| split; [| split]].
  - unfold filtered_json_download, column. rewrite Hc.
    rewrite decide_True; [done |].
    apply required_columns_json_normalize; [| done].
    apply elem_of_required_columns. tauto.
  - intros e. rewrite list_elem_of_filter. tauto.
  - apply sublist_filter.
  - eexists. split; [reflexivity |]. split; [| split].
    + cbn [pd_json_normalize json_normalize rows]. rewrite Hr.
      cbn [json_normalize rows]. rewrite select_by_visible_ids by done.
      symmetry. apply filter_fmap_list.
    + cbn [pd_json_normalize]. rewrite Hc. intros label Hl.
      apply elem_of_columns_json_normalize in Hl as (e & He & Hl).
      apply elem_of_columns_json_normalize. exists e. split; [| done].
      by apply list_elem_of_filter in He as [_ ?].
    + intros label. cbn [pd_json_normalize].
      apply elem_of_columns_json_normalize.
Qed.

Lemma export_round_trip_witness :
  (NoDup (id <$> scenario)
   ∧ scenario ≠ []
   ∧ regular (json_normalize scenario) xrd_high_temp
   ∧ filter_engine (json_normalize scenario) xrd_high_temp
     = Ok {| columns := columns (json_normalize scenario);
             rows := [flatten cell_A] |})
  ∧ ∃ exported,
      filtered_json_download scenario
        {| columns := columns (json_normalize scenario);
           rows := [flatten cell_A] |} = Ok exported
      ∧ (∀ e, e ∈ exported ↔ e ∈ scenario ∧ id e ∈ r_id <$> [flatten cell_A])
      ∧ exported `sublist_of` scenario
      ∧ ∃ df, load_registry (json_dumps exported) = Loaded df (RawList exported)
              ∧ rows df = [flatten cell_A]
              ∧ columns df ⊆ columns (json_normalize scenario)
              ∧ ∀ label, label ∈ columns df
                         ↔ ∃ e, e ∈ exported ∧ label ∈ record_columns e.
Proof.
  assert (NoDup (id <$> scenario)) as Hnd.
  { apply (bool_decide_unpack _). vm_compute. exact I. }
  assert (regular (json_normalize scenario) xrd_high_temp) as Hreg.
  { apply (bool_decide_unpack _). vm_compute. exact I. }
  split; [split; [exact Hnd | split; [done | split;
    [exact Hreg | exact scenario_xrd_high_temp]]] |].
  exact (export_round_trip scenario xrd_high_temp _ Hnd ltac:(done) Hreg
           scenario_xrd_high_temp).
Defined.

Example scenario_download :
  filtered_json_download scenario
    {| columns := columns (json_normalize scenario); rows := [flatten cell_A] |}
  = Ok [cell_A].
Proof. vm_compute. reflexivity. Qed.

(** ** The glossary annotation *)

Lemma append_cons (a : ascii) (s1 s2 : string) :
  String a s1 +:+ s2 = String a (s1 +:+ s2).
Proof. reflexivity. Qed.

Lemma append_empty (s : string) : "" +:+ s = s.
Proof. reflexivity. Qed.

Lemma prefix_app (needle hay : string) :
  String.prefix needle hay = true ↔ ∃ s, hay = needle +:+ s.
Proof.
  revert hay. induction needle as [|a needle IH]; intros hay.
  - split; [intros _; by exists hay | intros _; by destruct hay].
  - destruct hay as [|b hay]; cbn [String.prefix].
    + split; [done | intros [s [=]]].
    + destruct (ascii_dec a b) as [->|Hne].
      * rewrite IH. split; intros [s Hs]; exists s.
        -- by rewrite append_cons, Hs.
        -- rewrite append_cons in Hs. by injection Hs.
      * split; [done |]. intros [s Hs]. rewrite append_cons in Hs. congruence.
Qed.

(** [contains] is the substring test. *)
Lemma contains_app (needle hay : string) :
  contains needle hay = true ↔ ∃ p s, hay = p +:+ needle +:+ s.
Proof.
  induction hay as [|b hay IH]; cbn [contains];
    rewrite orb_true_iff, prefix_app.
  - split.
    + intros [[s Hs]|[=]]. by exists "", s.
    + intros (p & s & Hps). left. destruct p; [by exists s | discriminate].
  - rewrite IH. split.
    + intros [[s Hs]|(p & s & Hps)].
      * by exists "", s.
      * exists (String b p), s. by rewrite append_cons, Hps.
    + intros (p & s & Hps). destruct p as [|b' p].
      * left. by exists s.
      * right. exists p, s. rewrite append_cons in Hps. by injection Hps.
Qed.

Lemma glossary_scan_first_match items tech desc :
  (∃ before key val after,
      items = (before ++ (key, val) :: after)%list
      ∧ key_matches tech key
      ∧ (∀ kv, kv ∈ before → ¬ key_matches tech kv.1)
      ∧ glossary_scan items tech desc = val)
  ∨ ((∀ kv, kv ∈ items → ¬ key_matches tech kv.1)
     ∧ glossary_scan items tech desc = desc).
Proof.
  induction items as [|[key val] items IH]; cbn [glossary_scan].
  - right. split; [| done]. intros kv Hkv. by apply elem_of_nil in Hkv.
  - destruct (contains (lower key) (lower tech)) eqn:E.
    + left. exists [], key, val, items. repeat split; [done |].
      intros kv Hkv. by apply elem_of_nil in Hkv.
    + destruct IH as [(before & k & v & after & -> & Hk & Hb & Hv)|[Hall Hd]].
      * left. exists ((key, val) :: before), k, v, after.
        repeat split; [done | | done].
        intros kv Hkv. apply elem_of_cons in Hkv as [->|Hkv]; [| by apply Hb].
        unfold key_matches. cbn. congruence.
      * right. split; [| done].
        intros kv Hkv. apply elem_of_cons in Hkv as [->|Hkv]; [| by apply Hall].
        unfold key_matches. cbn. congruence.
Qed.

(** [lower] against the policy's wording. *)
Lemma N_of_lower_ascii (a : ascii) :
  N_of_ascii (lower_ascii a)
  = (if (65 <=? N_of_ascii a) && (N_of_ascii a <=? 90)
     then N_of_ascii a + 32 else N_of_ascii a)%N.
Proof.
  unfold lower_ascii.
  destruct ((65 <=? N_of_ascii a) && (N_of_ascii a <=? 90))%N eqn:E; [| done].
  apply andb_prop in E as [_ E]. apply N.leb_le in E.
  apply N_ascii_embedding. lia.
Qed.

Lemma N_of_ascii_inj (a b : ascii) : N_of_ascii a = N_of_ascii b → a = b.
Proof.
  intros H. rewrite <- (ascii_N_embedding a), <- (ascii_N_embedding b).
  by rewrite H.
Qed.

Lemma lower_ascii_same_letter (a b : ascii) :
  lower_ascii a = lower_ascii b ↔ same_letter a b.
Proof.
  unfold same_letter, is_upper. split.
  - intros H. apply (f_equal N_of_ascii) in H. rewrite !N_of_lower_ascii in H.
    destruct (N.leb_spec 65 (N_of_ascii a)), (N.leb_spec (N_of_ascii a) 90),
      (N.leb_spec 65 (N_of_ascii b)), (N.leb_spec (N_of_ascii b) 90);
      cbn [andb] in H;
      first [ left; apply N_of_ascii_inj; lia
            | right; left; lia
            | right; right; lia ].
  - intros H. apply N_of_ascii_inj. rewrite !N_of_lower_ascii.
    destruct H as [-> | [[Hu Hb] | [Hu Ha]]]; [done | |].
    + destruct (N.leb_spec 65 (N_of_ascii a)), (N.leb_spec (N_of_ascii a) 90),
        (N.leb_spec 65 (N_of_ascii b)), (N.leb_spec (N_of_ascii b) 90);
        cbn [andb]; lia.
    + destruct (N.leb_spec 65 (N_of_ascii a)), (N.leb_spec (N_of_ascii a) 90),
        (N.leb_spec 65 (N_of_ascii b)), (N.leb_spec (N_of_ascii b) 90);
        cbn [andb]; lia.
Qed.

Lemma lower_same_letters (s t : string) :
  lower s = lower t ↔
  Forall2 same_letter (String.list_ascii_of_string s) (String.list_ascii_of_string t).
Proof.
  revert t. induction s as [|a s IH]; intros [|b t];
    cbn [lower String.list_ascii_of_string].
  - split; [constructor | done].
  - split; [discriminate | intros H; inversion H].
  - split; [discriminate | intros H; inversion H].
  - split.
    + intros [= Hab Hst]. constructor;
        [by apply lower_ascii_same_letter | by apply IH].
    + intros H. apply Forall2_cons in H as [Hab Hst].
      apply lower_ascii_same_letter in Hab. apply IH in Hst. congruence.
Qed.

Lemma lower_app (s t : string) : lower (s +:+ t) = lower s +:+ lower t.
Proof.
  induction s as [|a s IH]; [done |].
  rewrite append_cons. cbn [lower]. by rewrite append_cons, IH.
Qed.

Lemma lower_app_inv (t x y : string) :
  lower t = x +:+ y →
  ∃ t1 t2, t = t1 +:+ t2 ∧ lower t1 = x ∧ lower t2 = y.
Proof.
  revert t. induction x as [|a x IH]; intros t H.
  - exists "", t. by rewrite !append_empty in *.
  - rewrite append_cons in H. destruct t as [|b t]; [discriminate |].
    cbn [lower] in H. injection H as Hb Ht.
    destruct (IH t Ht) as (t1 & t2 & -> & H1 & H2).
    exists (String b t1), t2. rewrite append_cons. cbn [lower].
    by rewrite Hb, H1.
Qed.

(** The script's test [key.lower() in tech.lower()] is case-insensitive
    containment. *)
Lemma key_matches_caseless (tech key : string) :
  key_matches tech key ↔ caseless_occurrence key tech.
Proof.
  unfold key_matches, caseless_occurrence. rewrite contains_app. split.
  - intros (p' & s' & H).
    apply lower_app_inv in H as (p & rest & -> & _ & H).
    apply lower_app_inv in H as (m & s0 & -> & Hm & _).
    exists p, m, s0. split; [done |]. apply lower_same_letters. by symmetry.
  - intros (p & m & s0 & -> & H). apply lower_same_letters in H.
    exists (lower p), (lower s0). by rewrite !lower_app, H.
Qed.

(** C7: the annotation is the definition of the first glossary entry, in
    glossary order, whose lowercased key is a substring of the lowercased
    technique name, and the text "Definition unavailable." when there is
    none; it is a total function.  A key matches exactly when some stretch
    of the name has the same letters as the key, an uppercase ASCII letter
    and its lowercase letter counting as the same.  With "XRD" before
    "XRD-CT", the name "XRD-CT Synchrotron" gets the "XRD" definition, in
    any two-key glossary, in whatever case the keys and the name are
    written, and in the glossary of the script. *)
Theorem glossary_first_match_wins (glossary : list (string * string))
    (tech : string) :
  ((∃ before key val after,
       glossary = (before ++ (key, val) :: after)%list
       ∧ key_matches tech key
       ∧ (∀ kv, kv ∈ before → ¬ key_matches tech kv.1)
       ∧ describe glossary tech = val)
   ∨ ((∀ kv, kv ∈ glossary → ¬ key_matches tech kv.1)
      ∧ describe glossary tech = "Definition unavailable."))
  ∧ (∀ key, key_matches tech key ↔ ∃ p s, lower tech = p +:+ lower key +:+ s)
  ∧ (∀ key, key_matches tech key ↔ caseless_occurrence key tech)
  ∧ lower "XRD-CT (Synchrotron) @AZ[`az{" = "xrd-ct (synchrotron) @az[`az{"
  ∧ (∀ d1 d2, describe [("XRD", d1); ("XRD-CT", d2)] "XRD-CT Synchrotron" = d1)
  ∧ (∀ d1 d2, describe [("XRD", d1); ("XRD-CT", d2)] "xrd-ct synchrotron" = d1)
  ∧ (∀ d1 d2, describe [("xrd", d1); ("xrd-ct", d2)] "XRD-CT Synchrotron" = d1)
  ∧ (∀ d1 d2, describe [("Xrd-Ct", d1); ("XRD", d2)] "xRD-cT Synchrotron" = d1)
  ∧ (∀ d1 d2, describe [("SANS", d1); ("XRD-CT", d2)] "xrd-ct synchrotron" = d2)
  ∧ (∀ d1, describe [("XRD", d1)] "X-RD" = "Definition unavailable.")
  ∧ describe TECHNIQUE_DEFINITIONS "XRD-CT Synchrotron"
    = "X-ray Diffraction. Determines crystal structure, lattice parameters, strain, and phase evolution during cycling."
  ∧ describe TECHNIQUE_DEFINITIONS "xrd-ct synchrotron"
    = "X-ray Diffraction. Determines crystal structure, lattice parameters, strain, and phase evolution during cycling.".
Proof.
  split; [apply glossary_scan_first_match |].
  split; [intros key; apply contains_app |].
  split; [intros key; apply key_matches_caseless |].
  repeat split; reflexivity.
Qed.

Example describe_case_insensitive :
  describe [("xrd", "d")] "In-situ XRD" = "d"
  ∧ describe [("XRD", "d")] "in-situ xrd" = "d"
  ∧ describe [("XRD", "d")] "SANS" = "Definition unavailable.".
Proof. repeat split. Qed.

(** ** The name lookup of the comparison view *)

Lemma next_named_Ok raw_json cell_name :
  cell_name ∈ name <$> raw_json →
  ∃ before cell_data after,
    raw_json = (before ++ cell_data :: after)%list
    ∧ name cell_data = cell_name
    ∧ (∀ e, e ∈ before → name e ≠ cell_name)
    ∧ next_named raw_json cell_name = Ok cell_data.
Proof.
  induction raw_json as [|item raw_json IH]; intros Hin;
    [by apply elem_of_nil in Hin |].
  cbn [next_named]. case_bool_decide as Hname.
  - exists [], item, raw_json. repeat split; [done |].
    intros e He. by apply elem_of_nil in He.
  - cbn [fmap list_fmap] in Hin. apply elem_of_cons in Hin as [Heq|Hin]; [done |].
    destruct (IH Hin) as (before & cell_data & after & -> & Hn & Hb & Hnext).
    exists (item :: before), cell_data, after. repeat split; [done | | done].
    intros e He. apply elem_of_cons in He as [->|He]; [done | by apply Hb].
Qed.

Lemma next_named_Raise raw_json cell_name :
  cell_name ∉ name <$> raw_json →
  next_named raw_json cell_name = Raise StopIteration.
Proof.
  induction raw_json as [|item raw_json IH]; intros Hout; [done |].
  cbn [next_named]. cbn [fmap list_fmap] in Hout.
  apply not_elem_of_cons in Hout as [Hne Hout].
  rewrite bool_decide_eq_false_2 by done. by apply IH.
Qed.

(** C9, as stated, fails: a name that no entry of the scenario bears makes
    the lookup raise [StopIteration]; no list of cards, empty or not, is
    produced. *)
Lemma stale_name_counterexample :
  ("Z" ∉ name <$> scenario)
  ∧ comparison scenario ["Z"] = Raise StopIteration
  ∧ ¬ (∃ cards, comparison scenario ["Z"] = Ok cards).
Proof.
  split; [| split].
  - apply (bool_decide_unpack _). vm_compute. exact I.
  - reflexivity.
  - intros [cards [=]].
Qed.

(** C9 (amended): a name borne by a row of the filtered frame is a name of
    the registry, and the lookup returns the first entry of the registry,
    in list order, with that name, whose card is shown; for a name that no
    entry bears the lookup raises [StopIteration], which ends the loop over
    the selected names. *)
Theorem name_lookup (data : list HardwareRecord) (cell_name : string) :
  (∀ c out, filter_engine (json_normalize data) c = Ok out →
            cell_name ∈ r_name <$> rows out → cell_name ∈ name <$> data)
  ∧ (cell_name ∈ name <$> data →
     ∃ before cell_data after,
       data = (before ++ cell_data :: after)%list
       ∧ name cell_data = cell_name
       ∧ (∀ e, e ∈ before → name e ≠ cell_name)
       ∧ next_named data cell_name = Ok cell_data
       ∧ comparison data [cell_name]
         = Ok [card_of TECHNIQUE_DEFINITIONS cell_data])
  ∧ (cell_name ∉ name <$> data →
     next_named data cell_name = Raise StopIteration
     ∧ ∀ names, comparison data (cell_name :: names) = Raise StopIteration).
Proof.
  split; [| split].
  - intros c out Hf Hin. apply filter_engine_rows in Hf as (_ & _ & Hr).
    rewrite Hr in Hin. apply list_elem_of_fmap in Hin as (r & -> & Hin).
    apply list_elem_of_filter in Hin as [_ Hin]. cbn [json_normalize rows] in Hin.
    apply list_elem_of_fmap in Hin as (e & -> & He).
    apply list_elem_of_fmap. by exists e.
  - intros Hin.
    destruct (next_named_Ok data cell_name Hin)
      as (before & cell_data & after & Hd & Hn & Hb & Hnext).
    exists before, cell_data, after. repeat split; try done.
    cbn [comparison]. by rewrite Hnext.
  - intros Hout. pose proof (next_named_Raise data cell_name Hout) as Hnext.
    split; [done |]. intros names. cbn [comparison]. by rewrite Hnext.
Qed.

Example scenario_card :
  comparison scenario ["B"] = Ok [card_of TECHNIQUE_DEFINITIONS cell_B]
  ∧ card_max_temp (card_of TECHNIQUE_DEFINITIONS cell_B) = 25
  ∧ card_email (card_of TECHNIQUE_DEFINITIONS cell_B) = "N/A"
  ∧ card_pressure_control (card_of TECHNIQUE_DEFINITIONS cell_B) = "No"
  ∧ card_pressure_control (card_of TECHNIQUE_DEFINITIONS cell_C) = "Yes".
Proof. repeat split. Qed.

(** ** The registry loader *)

(** C8, as stated, fails: a document holding one JSON object instead of an
    array is not a list of entries, yet the loader returns a frame of one
    row and hands the object on as [raw_json]. *)
Lemma single_object_counterexample :
  malformed (SingleRecord cell_A)
  ∧ load_registry (SingleRecord cell_A)
    = Loaded (json_normalize [cell_A]) (RawDict cell_A)
  ∧ ¬ load_fails (SingleRecord cell_A).
Proof.
  split; [right; by exists cell_A |]. split; [reflexivity |].
  intros [[message [=]]|[e [=]]].
Qed.

(** C8 (amended): the loader ends the run with its message only for a
    missing file; a document that is not valid JSON makes it raise
    [JSONDecodeError], which its handler does not catch; it checks no
    shape, so a JSON array of entries and a single JSON object are both
    loaded and returned. *)
Theorem load_registry_outcomes (doc : Document) :
  (load_registry doc = Stopped registry_not_found ↔ doc = NoFile)
  ∧ (load_registry doc = Uncaught JSONDecodeError ↔ doc = NotJson)
  ∧ (load_fails doc ↔ doc = NoFile ∨ doc = NotJson)
  ∧ (∀ data, doc = RecordList data →
       load_registry doc = Loaded (json_normalize data) (RawList data))
  ∧ (∀ entry, doc = SingleRecord entry →
       load_registry doc = Loaded (json_normalize [entry]) (RawDict entry)).
Proof.
  unfold load_fails.
  destruct doc as [| |data|entry]; cbn;
    (split; [split; (done || intros [=]) |]);
    (split; [split; (done || intros [=]) |]);
    (split; [| split; intros ? [=]; subst; reflexivity]).
  - split; [by left | intros _; left; by eexists].
  - split; [by right | intros _; right; by eexists].
  - split; [intros [[? [=]]|[? [=]]] | intros [[=]|[=]]].
  - split; [intros [[? [=]]|[? [=]]] | intros [[=]|[=]]].
Qed.

(** ** The technique compatibility matrix *)

Lemma technique_matrix_Ok raw_json filtered_df techs :
  col_name ∈ columns filtered_df ∨ raw_json = [] →
  technique_matrix raw_json filtered_df techs
  = Ok (matrix_row techs
          <$> filter (λ entry, name entry ∈ r_name <$> rows filtered_df) raw_json).
Proof.
  intros Hcol. induction raw_json as [|entry raw_json IH]; [done |].
  destruct Hcol as [Hcol|[=]]. cbn [technique_matrix]. rewrite filter_cons.
  rewrite IH by (by left). unfold column. rewrite decide_True by done.
  cbn [mbind result_bind].
  case_bool_decide; case_decide; done.
Qed.

(** The filtered frame of a registry keeps the [name] column of a
    non-empty registry, unless a selection step ran on a frame without
    rows. *)
Lemma filtered_frame_has_name data c out :
  regular (json_normalize data) c →
  filter_engine (json_normalize data) c = Ok out →
  col_name ∈ columns out ∨ data = [].
Proof.
  intros Hreg Hf. apply (filter_engine_Ok _ _ _ Hreg) in Hf as (_ & -> & _).
  destruct data as [|e data]; [by right | left].
  apply required_columns_json_normalize; [| done].
  apply elem_of_required_columns. tauto.
Qed.

(** When a selection step ran on a frame without rows, the registry has
    entries and the filtered frame has neither rows nor columns. *)
Lemma collapsed_frame_of_registry data c out :
  ¬ regular (json_normalize data) c →
  filter_engine (json_normalize data) c = Ok out →
  data ≠ [] ∧ columns out = ∅ ∧ rows out = [].
Proof.
  intros Hreg Hf.
  apply (filter_engine_collapsed _ _ _ Hreg) in Hf
    as (Hneed & _ & _ & _ & _ & Hc & Hr).
  split; [| done]. intros ->.
  apply needed_columns_spec in Hneed as (Ht & Hi & _).
  apply Hreg. split.
  - left. destruct Ht as [Ht | Ht]; [done |].
    cbn in Ht. by apply elem_of_empty in Ht.
  - left. destruct Hi as [Hi | Hi]; [done |].
    cbn in Hi. by apply elem_of_empty in Hi.
Qed.

(** C10: whenever the matrix is built, it has one row for each entry of the
    registry whose name is the name of some row of the filtered frame, in
    registry order; so an entry left out by the filters has its row in the
    matrix as soon as an entry of the same name is kept.  The matrix is
    built exactly when no selection step ran on a frame without rows;
    otherwise the filtered frame has lost its [name] column and reading it
    raises [KeyError]. *)
Theorem matrix_rows_by_name data c out techs :
  filter_engine (json_normalize data) c = Ok out →
  (∀ matrix, technique_matrix data out techs = Ok matrix →
     matrix = matrix_row techs
                <$> filter (λ entry, name entry ∈ r_name <$> rows out) data)
  ∧ (regular (json_normalize data) c ↔
     technique_matrix data out techs
     = Ok (matrix_row techs
             <$> filter (λ entry, name entry ∈ r_name <$> rows out) data))
  ∧ (¬ regular (json_normalize data) c ↔
     technique_matrix data out techs = Raise (KeyError col_name))
  ∧ (∀ e, e ∈ filter (λ entry, name entry ∈ r_name <$> rows out) data ↔
          e ∈ data ∧ ∃ r, r ∈ rows out ∧ r_name r = name e)
  ∧ (∀ e e', e ∈ data → e' ∈ data → name e = name e' →
       flatten e' ∈ rows out →
       e ∈ filter (λ entry, name entry ∈ r_name <$> rows out) data).
Proof.
  intros Hf.
  assert (∀ e, e ∈ filter (λ entry, name entry ∈ r_name <$> rows out) data ↔
               e ∈ data ∧ ∃ r, r ∈ rows out ∧ r_name r = name e) as Hrow.
  { intros e. rewrite list_elem_of_filter, list_elem_of_fmap.
    split.
    - intros [(r & Hn & Hr) He]. split; [done |]. by exists r.
    - intros [He (r & Hr & Hn)]. split; [| done]. by exists r. }
  assert (regular (json_normalize data) c →
          technique_matrix data out techs
          = Ok (matrix_row techs
                  <$> filter (λ entry, name entry ∈ r_name <$> rows out) data))
    as Hbuilt.
  { intros Hreg. apply technique_matrix_Ok.
    destruct (filtered_frame_has_name data c out Hreg Hf) as [Hc | ->];
      [by left | by right]. }
  assert (¬ regular (json_normalize data) c →
          technique_matrix data out techs = Raise (KeyError col_name))
    as Hlost.
  { intros Hreg.
    destruct (collapsed_frame_of_registry data c out Hreg Hf)
      as (Hne & Hc & _).
    destruct data as [|entry data]; [done |].
    cbn [technique_matrix]. unfold column. rewrite Hc.
    rewrite decide_False; [done | apply not_elem_of_empty]. }
  split; [| split; [| split; [| split; [exact Hrow |]]]].
  - intros matrix Hm.
    destruct (decide (regular (json_normalize data) c)) as [Hreg | Hreg].
    + rewrite (Hbuilt Hreg) in Hm. by injection Hm as <-.
    + rewrite (Hlost Hreg) in Hm. done.
  - split; [exact Hbuilt |]. intros Hm.
    destruct (decide (regular (json_normalize data) c)) as [Hreg | Hreg];
      [done |].
    rewrite (Hlost Hreg) in Hm. done.
  - split; [exact Hlost |]. intros Hm Hreg.
    rewrite (Hbuilt Hreg) in Hm. done.
  - intros e e' He He' Hname Hin. apply Hrow. split; [done |].
    exists (flatten e'). split; [done |]. by rewrite Hname.
Qed.

Example twins_cad_only :
  filter_engine (json_normalize [twin_1; twin_2]) cad_only
  = Ok {| columns := columns (json_normalize [twin_1; twin_2]);
          rows := [flatten twin_2] |}.
Proof. vm_compute. reflexivity. Qed.

Example collapsed_matrix :
  filter_engine (json_normalize staffed) unmatched_then_instrument
  = Ok {| columns := ∅; rows := [] |}
  ∧ technique_matrix staffed {| columns := ∅; rows := [] |} ["SANS"]
    = Raise (KeyError "name").
Proof. split; vm_compute; reflexivity. Qed.

Lemma matrix_rows_by_name_witness :
  filter_engine (json_normalize [twin_1; twin_2]) cad_only
  = Ok {| columns := columns (json_normalize [twin_1; twin_2]);
          rows := [flatten twin_2] |}
  ∧ technique_matrix [twin_1; twin_2]
      {| columns := columns (json_normalize [twin_1; twin_2]);
         rows := [flatten twin_2] |} ["SANS"; "XRD"]
    = Ok [matrix_row ["SANS"; "XRD"] twin_1; matrix_row ["SANS"; "XRD"] twin_2].
Proof.
  split; [exact twins_cad_only |].
  destruct (matrix_rows_by_name [twin_1; twin_2] cad_only _ ["SANS"; "XRD"]
              twins_cad_only) as (_ & [Hbuilt _] & _).
  rewrite Hbuilt; [vm_compute; reflexivity |].
  apply (bool_decide_unpack _). vm_compute. exact I.
Defined.

Example twins_matrix :
  technique_matrix [twin_1; twin_2]
    {| columns := columns (json_normalize [twin_1; twin_2]);
       rows := [flatten twin_2] |} ["SANS"; "XRD"]
  = Ok [matrix_row ["SANS"; "XRD"] twin_1; matrix_row ["SANS"; "XRD"] twin_2].
Proof. vm_compute. reflexivity. Qed.

(** The technique list of the sidebar: every technique some entry names,
    once each, whatever the criteria (it is computed from the full frame). *)
Lemma all_techniques_Ok data :
  data ≠ [] →
  ∃ techs, all_techniques (json_normalize data) = Ok techs
    ∧ NoDup techs
    ∧ ∀ t, t ∈ techs ↔ ∃ e, e ∈ data ∧ t ∈ techniques (compatibility e).
Proof.
  intros Hne. eexists. split; [| split].
  - unfold all_techniques, column. rewrite decide_True; [reflexivity |].
    apply required_columns_json_normalize; [| done].
    apply elem_of_required_columns. tauto.
  - unfold sorted. rewrite merge_sort_Permutation. apply NoDup_remove_dups.
  - intros t. unfold sorted.
    rewrite merge_sort_Permutation, elem_of_remove_dups, list_elem_of_In, in_concat.
    cbn [json_normalize rows]. split.
    + intros (x & Hx & Ht). apply list_elem_of_In, list_elem_of_fmap in Hx
        as (r & -> & Hr). apply list_elem_of_fmap in Hr as (e & -> & He).
      exists e. split; [done |]. by apply list_elem_of_In.
    + intros (e & He & Ht). exists (techniques (compatibility e)).
      split; [| by apply list_elem_of_In].
      apply list_elem_of_In, list_elem_of_fmap. exists (flatten e).
      split; [done |]. apply list_elem_of_fmap. eauto.
Qed.

(** The keys of a row dict, read one at a time. *)
Lemma foldl_insert_lookup (f : string → MatrixCell) (techs : list string)
    (row : gmap string MatrixCell) (k : string) :
  foldl (λ row tech, <[tech := f tech]> row) row techs !! k
  = if decide (k ∈ techs) then Some (f k) else row !! k.
Proof.
  revert row. induction techs as [|t techs IH]; intros row; cbn [foldl].
  - rewrite decide_False; [done | apply not_elem_of_nil].
  - rewrite IH. destruct (decide (k ∈ techs)) as [Hin|Hout].
    + rewrite decide_True; [done | by right].
    + destruct (decide (k = t)) as [->|Hne].
      * rewrite lookup_insert_eq, decide_True; [done | by left].
      * rewrite lookup_insert_ne by done. rewrite decide_False; [done |].
        intros Hk. apply elem_of_cons in Hk as [?|?]; done.
Qed.

Lemma matrix_row_lookup techs entry (k : string) :
  matrix_row techs entry !! k
  = if decide (k ∈ techs)
    then Some (Flag (bool_decide (k ∈ techniques (compatibility entry))))
    else if decide (k = "Cell") then Some (Label (name entry)) else None.
Proof.
  unfold matrix_row.
  rewrite (foldl_insert_lookup
             (λ tech, Flag (bool_decide (tech ∈ techniques (compatibility entry))))).
  destruct (decide (k ∈ techs)); [done |].
  destruct (decide (k = "Cell")) as [->|Hne].
  - apply lookup_singleton_eq.
  - by apply lookup_singleton_ne.
Qed.

(** When no technique is called "Cell", a row keeps its label, has one
    column per technique, and each cell tells whether the entry has the
    technique. *)
Lemma matrix_row_columns techs entry :
  "Cell" ∉ techs →
  matrix_row techs entry !! "Cell" = Some (Label (name entry))
  ∧ dom (delete "Cell" (matrix_row techs entry)) = list_to_set techs
  ∧ ∀ t, t ∈ techs →
      delete "Cell" (matrix_row techs entry) !! t
      = Some (Flag (bool_decide (t ∈ techniques (compatibility entry)))).
Proof.
  intros Hcell. split; [| split].
  - rewrite matrix_row_lookup, decide_False by done. by rewrite decide_True.
  - apply set_eq. intros k.
    rewrite elem_of_dom, elem_of_list_to_set, lookup_delete.
    destruct (decide ("Cell" = k)) as [<-|Hne].
    + split; [by intros [? [=]] | done].
    + rewrite matrix_row_lookup. destruct (decide (k ∈ techs)) as [Hin|Hout].
      * split; [done | by eexists].
      * rewrite decide_False by done. split; [by intros [? [=]] | done].
  - intros t Ht. rewrite lookup_delete_ne by (intros <-; done).
    rewrite matrix_row_lookup. by rewrite decide_True.
Qed.

(** C6, the defect: the row dict keeps the entry's name under the key
    "Cell" and the technique flags under the technique names, in one key
    space.  For a registry with a technique called "Cell" the flag
    overwrites the name, and the indexed matrix has no column "Cell": its
    column set is not the set of technique names. *)
Theorem technique_called_Cell_loses_column :
  all_techniques (json_normalize [cell_D]) = Ok ["Cell"; "XRD"]
  ∧ filter_engine (json_normalize [cell_D]) no_criteria
    = Ok (json_normalize [cell_D])
  ∧ technique_matrix [cell_D] (json_normalize [cell_D]) ["Cell"; "XRD"]
    = Ok [matrix_row ["Cell"; "XRD"] cell_D]
  ∧ matrix_row ["Cell"; "XRD"] cell_D !! "Cell" = Some (Flag true)
  ∧ ∃ m, df_matrix [matrix_row ["Cell"; "XRD"] cell_D] = Some m
      ∧ m_index m = [Some (Flag true)]
      ∧ m_columns m = {[ "XRD" ]}
      ∧ m_columns m ≠ list_to_set ["Cell"; "XRD"].
Proof.
  split; [vm_compute; reflexivity |].
  split; [reflexivity |].
  split; [vm_compute; reflexivity |].
  split; [vm_compute; reflexivity |].
  eexists. split; [reflexivity |]. cbn [m_index m_columns].
  split; [vm_compute; reflexivity |].
  assert (⋃ (dom <$> [matrix_row ["Cell"; "XRD"] cell_D]) ∖ {["Cell"]}
          = ({[ "XRD" ]} : gset string)) as Hcols.
  { apply set_eq. intros k. cbn [fmap list_fmap union_list foldr].
    rewrite elem_of_difference, elem_of_union, elem_of_dom, matrix_row_lookup,
      !elem_of_singleton.
    destruct (decide (k = "XRD")) as [->|Hx].
    - split; [done | intros _]. split; [| done]. left. rewrite decide_True.
      + by eexists.
      + right. left.
    - split; [| done]. intros [[H|H] Hc]; [| by apply elem_of_empty in H].
      destruct (decide (k ∈ ["Cell"; "XRD"])) as [Hin|Hout].
      + apply elem_of_cons in Hin as [?|Hin]; [done |].
        apply list_elem_of_singleton in Hin. done.
      + rewrite decide_False in H by done. by destruct H as [? [=]]. }
  split; [exact Hcols |]. rewrite Hcols. intros Heq.
  assert ("Cell" ∈ ({[ "XRD" ]} : gset string)) as Hin.
  { rewrite Heq. apply elem_of_list_to_set. left. }
  apply elem_of_singleton in Hin. discriminate.
Qed.

Lemma elem_of_dom_matrix_row techs entry (k : string) :
  k ∈ dom (matrix_row techs entry) ↔ k ∈ techs ∨ k = "Cell".
Proof.
  rewrite elem_of_dom, matrix_row_lookup.
  destruct (decide (k ∈ techs)); [split; [by left | by eexists] |].
  destruct (decide (k = "Cell")); [split; [by right | by eexists] |].
  split; [by intros [? [=]] | by intros [?|?]].
Qed.

(** Away from that name clash the indexed matrix has exactly the technique
    names as its columns, whatever rows the criteria leave. *)
Lemma df_matrix_columns techs (entries : list HardwareRecord) m :
  "Cell" ∉ techs →
  df_matrix (matrix_row techs <$> entries) = Some m →
  m_columns m = list_to_set techs.
Proof.
  intros Hcell Hm. destruct entries as [|e entries]; [discriminate |].
  cbn [fmap list_fmap df_matrix] in Hm. injection Hm as <-. cbn [m_columns].
  apply set_eq. intros k.
  rewrite elem_of_difference, elem_of_union, elem_of_dom_matrix_row,
    elem_of_union_list, elem_of_singleton, elem_of_list_to_set.
  split.
  - intros [[[Hk|Hk]|(X & HX & Hk)] Hne]; [done | done |].
    apply list_elem_of_fmap in HX as (row & -> & Hrow).
    apply list_elem_of_fmap in Hrow as (e' & -> & _).
    apply elem_of_dom_matrix_row in Hk as [Hk|Hk]; done.
  - intros Hk. split; [left; by left | by intros ->].
Qed.

(** * Further properties of the script *)

(** ** The sidebar lists *)

Lemma elem_of_concat (ls : list (list string)) (x : string) :
  x ∈ concat ls ↔ ∃ sub, sub ∈ ls ∧ x ∈ sub.
Proof.
  rewrite list_elem_of_In, in_concat. split; intros (sub & H1 & H2); exists sub.
  - by rewrite !list_elem_of_In.
  - by rewrite <- !list_elem_of_In.
Qed.

Lemma sorted_set_spec (ls : list (list string)) :
  NoDup (sorted (remove_dups (concat ls)))
  ∧ Sorted string_le (sorted (remove_dups (concat ls)))
  ∧ ∀ x, x ∈ sorted (remove_dups (concat ls)) ↔ ∃ sub, sub ∈ ls ∧ x ∈ sub.
Proof.
  unfold sorted. split; [| split].
  - rewrite merge_sort_Permutation. apply NoDup_remove_dups.
  - apply (Sorted_merge_sort string_le).
  - intros x. by rewrite merge_sort_Permutation, elem_of_remove_dups, elem_of_concat.
Qed.

(** X1: for a non-empty registry both sidebar lists are computed; each is
    in ascending order, without repetition, and holds exactly the technique
    (instrument) names that some entry of the registry lists. *)
Theorem sidebar_lists data :
  data ≠ [] →
  ∃ techs instrs,
    all_techniques (json_normalize data) = Ok techs
    ∧ all_instruments (json_normalize data) = Ok instrs
    ∧ NoDup techs ∧ Sorted string_le techs
    ∧ (∀ t, t ∈ techs ↔ ∃ e, e ∈ data ∧ t ∈ techniques (compatibility e))
    ∧ NoDup instrs ∧ Sorted string_le instrs
    ∧ (∀ i, i ∈ instrs ↔ ∃ e, e ∈ data ∧ i ∈ instruments (compatibility e)).
Proof.
  intros Hne.
  assert (∀ label, label ∈ required_columns →
            label ∈ columns (json_normalize data)) as Hcol.
  { intros label Hl. by apply required_columns_json_normalize. }
  eexists _, _. unfold all_techniques, all_instruments, column.
  rewrite !decide_True
    by (apply Hcol, elem_of_required_columns; tauto).
  split; [reflexivity |]. split; [reflexivity |].
  cbn [json_normalize rows].
  destruct (sorted_set_spec (r_techniques <$> (flatten <$> data)))
    as (Hn1 & Hs1 & Hm1).
  destruct (sorted_set_spec (r_instruments <$> (flatten <$> data)))
    as (Hn2 & Hs2 & Hm2).
  repeat split; try done.
  - intros Ht. apply Hm1 in Ht as (sub & Hsub & Ht).
    apply list_elem_of_fmap in Hsub as (r & -> & Hr).
    apply list_elem_of_fmap in Hr as (e & -> & He). by exists e.
  - intros (e & He & Ht). apply Hm1. exists (techniques (compatibility e)).
    split; [| done]. apply list_elem_of_fmap. exists (flatten e).
    split; [done |]. apply list_elem_of_fmap. by exists e.
  - intros Hi. apply Hm2 in Hi as (sub & Hsub & Hi).
    apply list_elem_of_fmap in Hsub as (r & -> & Hr).
    apply list_elem_of_fmap in Hr as (e & -> & He). by exists e.
  - intros (e & He & Hi). apply Hm2. exists (instruments (compatibility e)).
    split; [| done]. apply list_elem_of_fmap. exists (flatten e).
    split; [done |]. apply list_elem_of_fmap. by exists e.
Qed.

Lemma sidebar_lists_witness :
  scenario ≠ []
  ∧ ∃ techs instrs,
      all_techniques (json_normalize scenario) = Ok techs
      ∧ all_instruments (json_normalize scenario) = Ok instrs
      ∧ NoDup techs ∧ Sorted string_le techs
      ∧ (∀ t, t ∈ techs ↔ ∃ e, e ∈ scenario ∧ t ∈ techniques (compatibility e))
      ∧ NoDup instrs ∧ Sorted string_le instrs
      ∧ (∀ i, i ∈ instrs ↔ ∃ e, e ∈ scenario ∧ i ∈ instruments (compatibility e)).
Proof.
  split; [done |]. apply (sidebar_lists scenario). done.
Defined.

Example scenario_sidebar :
  all_techniques (json_normalize scenario) = Ok ["SANS"; "XAS"; "XRD"]
  ∧ all_instruments (json_normalize scenario) = Ok [].
Proof. split; vm_compute; reflexivity. Qed.

(** ** More on the filter engine *)

(** X2: a technique offered by the sidebar always finds a cell: for a
    non-empty selection drawn from the technique list, and no other
    criterion, the engine returns and each selected technique is listed by
    some row of the output, which is therefore not empty. *)
Theorem offered_technique_finds_cell data techs selected :
  all_techniques (json_normalize data) = Ok techs →
  selected ≠ [] →
  (∀ t, t ∈ selected → t ∈ techs) →
  ∃ out,
    filter_engine (json_normalize data) (only_techniques selected) = Ok out
    ∧ rows out ≠ []
    ∧ ∀ t, t ∈ selected → ∃ r, r ∈ rows out ∧ t ∈ r_techniques r.
Proof.
  intros Hall Hne Hsub.
  unfold all_techniques in Hall. apply bind_Ok in Hall as (subs & Hcol & [= <-]).
  apply column_Ok in Hcol as [Hcol ->].
  exists {| columns := columns (json_normalize data);
            rows := filter (accepts (only_techniques selected))
                      (rows (json_normalize data)) |}.
  assert (∀ t, t ∈ selected →
            ∃ r, r ∈ filter (accepts (only_techniques selected))
                       (rows (json_normalize data)) ∧ t ∈ r_techniques r) as Hrow.
  { intros t Ht. pose proof (Hsub t Ht) as Hin.
    apply sorted_set_spec in Hin as (sub & Hs & Hts).
    apply list_elem_of_fmap in Hs as (r & -> & Hr). exists r. split; [| done].
    apply list_elem_of_filter. split; [| done].
    unfold accepts. cbn. repeat split; try (by left).
    right. apply Exists_exists. by exists t. }
  split; [| split; [| exact Hrow]].
  - apply filter_engine_Ok.
    + split; [right | by left].
      destruct selected as [|t sel]; [done |].
      destruct (Hrow t) as (r & Hr & _); [left |].
      apply list_elem_of_filter in Hr as [_ Hr].
      intros Hnil. rewrite Hnil in Hr. by apply elem_of_nil in Hr.
    + split; [| done].
      apply needed_columns_spec. cbn. repeat split; try (by left). by right.
  - cbn [rows]. destruct selected as [|t sel]; [done |].
    destruct (Hrow t) as (r & Hr & _); [left |].
    intros Hnil. rewrite Hnil in Hr. by apply elem_of_nil in Hr.
Qed.

Lemma offered_technique_finds_cell_witness :
  (all_techniques (json_normalize scenario) = Ok ["SANS"; "XAS"; "XRD"]
   ∧ ["XAS"; "SANS"] ≠ []
   ∧ ∀ t, t ∈ ["XAS"; "SANS"] → t ∈ ["SANS"; "XAS"; "XRD"])
  ∧ ∃ out,
      filter_engine (json_normalize scenario) (only_techniques ["XAS"; "SANS"])
      = Ok out
      ∧ rows out ≠ []
      ∧ ∀ t, t ∈ ["XAS"; "SANS"] → ∃ r, r ∈ rows out ∧ t ∈ r_techniques r.
Proof.
  assert (∀ t, t ∈ ["XAS"; "SANS"] → t ∈ ["SANS"; "XAS"; "XRD"]) as Hsub.
  { intros t Ht. apply elem_of_cons in Ht as [->|Ht].
    - right. left.
    - apply list_elem_of_singleton in Ht as ->. left. }
  split; [split; [vm_compute; reflexivity | split; [done | exact Hsub]] |].
  apply (offered_technique_finds_cell scenario ["SANS"; "XAS"; "XRD"]);
    [vm_compute; reflexivity | done | exact Hsub].
Defined.

Lemma filter_sublist_mono {A} (P Q : A → Prop) `{!∀ a, Decision (P a)}
    `{!∀ a, Decision (Q a)} (l : list A) :
  (∀ a, P a → Q a) →
  filter P l `sublist_of` filter Q l ∧ filter P l = filter P (filter Q l).
Proof.
  intros HPQ.
  assert (filter P l = filter P (filter Q l)) as Heq
    by (symmetry; by apply list_filter_filter_l).
  split; [| done]. rewrite Heq. apply sublist_filter.
Qed.

Lemma intersects_mono (x selected selected' : list string) :
  (∀ t, t ∈ selected → t ∈ selected') →
  intersects x selected → intersects x selected'.
Proof.
  intros Hsub Hi. apply Exists_exists in Hi as (t & Ht & Hs).
  apply Exists_exists. exists t. split; [done | by apply Hsub].
Qed.

(** X3: narrowing the criteria only removes rows.  When the selections are
    kept (or a selection is made where there was none) and every ticked box
    stays ticked, the new output is a sublist of the old one, and it is what
    the new criteria keep of the old output. *)
Theorem ticking_boxes_only_removes_rows df c c' out out' :
  (selected_techniques c = [] ∨ selected_techniques c' = selected_techniques c) →
  (selected_instruments c = [] ∨ selected_instruments c' = selected_instruments c) →
  (digital_twin_only c = true → digital_twin_only c' = true) →
  (pressure_control_required c = true → pressure_control_required c' = true) →
  (high_temp_only c = true → high_temp_only c' = true) →
  filter_engine df c = Ok out →
  filter_engine df c' = Ok out' →
  rows out' `sublist_of` rows out
  ∧ rows out' = filter (accepts c') (rows out).
Proof.
  intros H1 H2 H3 H4 H5 Hf Hf'.
  apply filter_engine_rows in Hf as (_ & _ & ->).
  apply filter_engine_rows in Hf' as (_ & _ & ->).
  apply filter_sublist_mono.
  intros r (A1 & A2 & A3 & A4 & A5). repeat split.
  - destruct H1 as [->| <-]; [by left | done].
  - destruct H2 as [->| <-]; [by left | done].
  - destruct (digital_twin_only c); [| by left].
    rewrite H3 in A3 by done. destruct A3; [done | by right].
  - destruct (pressure_control_required c); [| by left].
    rewrite H4 in A4 by done. destruct A4; [done | by right].
  - destruct (high_temp_only c); [| by left].
    rewrite H5 in A5 by done. destruct A5; [done | by right].
Qed.

Lemma ticking_boxes_only_removes_rows_witness :
  ((selected_techniques xrd_only = []
    ∨ selected_techniques xrd_high_temp = selected_techniques xrd_only)
   ∧ (selected_instruments xrd_only = []
      ∨ selected_instruments xrd_high_temp = selected_instruments xrd_only)
   ∧ (digital_twin_only xrd_only = true → digital_twin_only xrd_high_temp = true)
   ∧ (pressure_control_required xrd_only = true →
      pressure_control_required xrd_high_temp = true)
   ∧ (high_temp_only xrd_only = true → high_temp_only xrd_high_temp = true)
   ∧ filter_engine (json_normalize scenario) xrd_only
     = Ok {| columns := columns (json_normalize scenario);
             rows := [flatten cell_A; flatten cell_C] |}
   ∧ filter_engine (json_normalize scenario) xrd_high_temp
     = Ok {| columns := columns (json_normalize scenario);
             rows := [flatten cell_A] |})
  ∧ [flatten cell_A] `sublist_of` [flatten cell_A; flatten cell_C]
    ∧ [flatten cell_A]
      = filter (accepts xrd_high_temp) [flatten cell_A; flatten cell_C].
Proof.
  split.
  - repeat split; (by right) || (by left) || done || exact scenario_xrd
                  || exact scenario_xrd_high_temp.
  - apply (ticking_boxes_only_removes_rows (json_normalize scenario)
             xrd_only xrd_high_temp
             {| columns := columns (json_normalize scenario);
                rows := [flatten cell_A; flatten cell_C] |}
             {| columns := columns (json_normalize scenario);
                rows := [flatten cell_A] |});
      [by right | by left | done | done | done
      | exact scenario_xrd | exact scenario_xrd_high_temp].
Defined.

(** X4: within a selection the match is "any of": enlarging a non-empty
    technique or instrument selection, with the boxes unchanged, only adds
    rows: the old output is a sublist of the new one. *)
Theorem enlarging_selection_only_adds_rows df c c' out out' :
  (selected_techniques c' = selected_techniques c
   ∨ (selected_techniques c ≠ []
      ∧ ∀ t, t ∈ selected_techniques c → t ∈ selected_techniques c')) →
  (selected_instruments c' = selected_instruments c
   ∨ (selected_instruments c ≠ []
      ∧ ∀ i, i ∈ selected_instruments c → i ∈ selected_instruments c')) →
  digital_twin_only c' = digital_twin_only c →
  pressure_control_required c' = pressure_control_required c →
  high_temp_only c' = high_temp_only c →
  filter_engine df c = Ok out →
  filter_engine df c' = Ok out' →
  rows out `sublist_of` rows out'.
Proof.
  intros H1 H2 H3 H4 H5 Hf Hf'.
  apply filter_engine_rows in Hf as (_ & _ & ->).
  apply filter_engine_rows in Hf' as (_ & _ & ->).
  apply filter_sublist_mono.
  intros r (A1 & A2 & A3 & A4 & A5). unfold accepts.
  rewrite H3, H4, H5. repeat split; try done.
  - destruct H1 as [->|[Hne Hsub]]; [done |].
    destruct A1 as [?|A1]; [done |]. right. by eapply intersects_mono.
  - destruct H2 as [->|[Hne Hsub]]; [done |].
    destruct A2 as [?|A2]; [done |]. right. by eapply intersects_mono.
Qed.

Example scenario_xrd_sans :
  filter_engine (json_normalize scenario) (only_techniques ["XRD"; "SANS"])
  = Ok (json_normalize scenario).
Proof. vm_compute. reflexivity. Qed.

Lemma enlarging_selection_only_adds_rows_witness :
  [flatten cell_A; flatten cell_C] `sublist_of` rows (json_normalize scenario).
Proof.
  apply (enlarging_selection_only_adds_rows (json_normalize scenario)
           xrd_only (only_techniques ["XRD"; "SANS"])
           {| columns := columns (json_normalize scenario);
              rows := [flatten cell_A; flatten cell_C] |}
           (json_normalize scenario));
    [ right; split; [done |]; intros t Ht;
      apply list_elem_of_singleton in Ht as ->; left
    | by left | done | done | done
    | exact scenario_xrd | exact scenario_xrd_sans ].
Defined.

(** X5: filtering an output again with the same criteria returns that
    output unchanged exactly when the output has rows or no technique and
    no instrument is selected; an output with rows is always a fixed point.
    With a selection and an output without rows, the second run applies a
    selection step to a frame without rows and cannot return the output. *)
Theorem filter_engine_idempotent df c out :
  filter_engine df c = Ok out →
  (rows out ≠ [] → filter_engine out c = Ok out)
  ∧ (filter_engine out c = Ok out ↔
     rows out ≠ []
     ∨ (selected_techniques c = [] ∧ selected_instruments c = [])).
Proof.
  intros Hf.
  assert (regular df c → regular out c → filter_engine out c = Ok out) as Hfix.
  { intros Hreg Hreg'.
    apply (filter_engine_Ok _ _ _ Hreg) in Hf as (Hn & Hc & Hr).
    apply (filter_engine_Ok _ _ _ Hreg'). rewrite Hc. repeat split; [done |].
    rewrite Hr at 1. rewrite Hr, list_filter_filter.
    apply list_filter_iff. tauto. }
  assert (rows out ≠ [] → filter_engine out c = Ok out) as Hrows.
  { intros Hne. destruct (regular_of_rows df c out Hf Hne). by apply Hfix. }
  split; [exact Hrows |]. split.
  - intros Hf'. destruct (decide (rows out = [])) as [Hnil | Hne];
      [right | by left].
    destruct (decide (regular out c)) as [Hreg | Hreg].
    + destruct Hreg as [[Ht | Ht] [Hi | Hi]]; try done.
      rewrite Hnil in Hi. done.
    + apply (filter_engine_collapsed _ _ _ Hreg) in Hf'
        as (Hneed & _ & _ & _ & _ & Hc & _).
      apply needed_columns_spec in Hneed as (Ht & Hi & _).
      rewrite Hc in Ht, Hi.
      split; [destruct Ht as [Ht | Ht] | destruct Hi as [Hi | Hi]];
        try done; by apply elem_of_empty in Ht || by apply elem_of_empty in Hi.
  - intros [Hne | [Ht Hi]]; [by apply Hrows |].
    apply Hfix; split; by left.
Qed.

Example empty_selection_not_idempotent :
  filter_engine (json_normalize staffed) (only_techniques ["Nope"])
  = Ok {| columns := columns (json_normalize staffed); rows := [] |}
  ∧ filter_engine {| columns := columns (json_normalize staffed); rows := [] |}
      (only_techniques ["Nope"])
    = Ok {| columns := ∅; rows := [] |}.
Proof. split; vm_compute; reflexivity. Qed.

Lemma filter_engine_idempotent_witness :
  filter_engine (json_normalize scenario) xrd_high_temp
  = Ok {| columns := columns (json_normalize scenario);
          rows := [flatten cell_A] |}
  ∧ filter_engine {| columns := columns (json_normalize scenario);
                     rows := [flatten cell_A] |} xrd_high_temp
    = Ok {| columns := columns (json_normalize scenario);
            rows := [flatten cell_A] |}.
Proof.
  split; [exact scenario_xrd_high_temp |].
  apply (filter_engine_idempotent _ _ _ scenario_xrd_high_temp). by left.
Defined.

(** ** Header metrics and main table *)

Lemma col_email_json_normalize data :
  col_email ∈ columns (json_normalize data) ↔
  ∃ e, e ∈ data ∧ is_Some (contact_info e ≫= primary_email).
Proof.
  rewrite elem_of_columns_json_normalize. apply exist_proper. intros e.
  unfold record_columns.
  rewrite !elem_of_union, !elem_of_labels_if, elem_of_required_columns.
  cbn [flatten r_pressure_control r_max_temp_c r_primary_email].
  split; [| tauto]. intros [He H]. split; [done |].
  destruct H as [[[H|[_ [=]]]|[_ [=]]]|[? _]]; [| done].
  destruct H as [[=]|[[=]|[[=]|[[=]|[[=]|[=]]]]]].
Qed.

Lemma metrics_Ok df m :
  metrics df = Ok m ↔
  col_cad ∈ columns df ∧ col_max_temp ∈ columns df
  ∧ m = {| cells_found := length (rows df);
           digital_twin_ready :=
             length (filter (λ r, r_cad_available r = true) (rows df));
           high_temp_capable :=
             length (filter (λ r, 100 ≤ default 25 (r_max_temp_c r)) (rows df)) |}.
Proof.
  unfold metrics, column.
  destruct (decide (col_cad ∈ columns df)) as [H1|H1];
    [| split; [discriminate | tauto]].
  destruct (decide (col_max_temp ∈ columns df)) as [H2|H2];
    [| split; [discriminate | tauto]].
  cbn. rewrite !mask_rows_fmap.
  rewrite (list_filter_iff (λ r, bool_decide (r_cad_available r = true) = true)
             (λ r, r_cad_available r = true))
    by (intros; apply bool_decide_eq_true).
  rewrite (list_filter_iff
             (λ r, bool_decide (100 ≤ fillna 25 (r_max_temp_c r)) = true)
             (λ r, 100 ≤ default 25 (r_max_temp_c r)))
    by (intros; apply bool_decide_eq_true).
  split; [intros [= <-]; done | intros (_ & _ & ->); done].
Qed.

Lemma filter_all_elem {A} (P : A → Prop) `{!∀ a, Decision (P a)} (l : list A) :
  (∀ a, a ∈ l → P a) → filter P l = l.
Proof.
  intros HP. induction l as [|a l IH]; [done |].
  rewrite filter_cons_True by (apply HP; left).
  rewrite IH; [done |]. intros b Hb. apply HP. by right.
Qed.

Lemma metrics_value df :
  col_cad ∈ columns df → col_max_temp ∈ columns df →
  metrics df
  = Ok {| cells_found := length (rows df);
          digital_twin_ready :=
            length (filter (λ r, r_cad_available r = true) (rows df));
          high_temp_capable :=
            length (filter (λ r, 100 ≤ default 25 (r_max_temp_c r)) (rows df)) |}.
Proof. intros H1 H2. by apply metrics_Ok. Qed.

(** X6: when the frame has the CAD and the maximum-temperature column and
    no selection step met a frame without rows, the header metrics of the
    filtered frame are computed; "Cells Found" is the number of filtered
    rows, the two other counts never exceed it, and a count equals it as
    soon as the box of that capability is ticked.  When a selection step
    met a frame without rows, the filtered frame has lost its columns and
    the first metric that reads one raises [KeyError]. *)
Theorem header_metrics df c out :
  filter_engine df c = Ok out →
  col_cad ∈ columns df →
  col_max_temp ∈ columns df →
  (regular df c →
   ∃ m, metrics out = Ok m
     ∧ cells_found m = length (rows out)
     ∧ (digital_twin_ready m ≤ cells_found m)%nat
     ∧ (high_temp_capable m ≤ cells_found m)%nat
     ∧ (digital_twin_only c = true → digital_twin_ready m = cells_found m)
     ∧ (high_temp_only c = true → high_temp_capable m = cells_found m))
  ∧ (¬ regular df c → metrics out = Raise (KeyError col_cad)).
Proof.
  intros Hf H1 H2. split; intros Hreg.
  - apply (filter_engine_Ok _ _ _ Hreg) in Hf as (_ & Hc & Hr).
    eexists. split; [apply metrics_Ok; rewrite Hc; done |].
    cbn [cells_found digital_twin_ready high_temp_capable].
    split; [done |]. split; [apply length_filter |].
    split; [apply length_filter |].
    split; intros Hflag; f_equal; apply filter_all_elem; intros r Hin;
      rewrite Hr in Hin; apply list_elem_of_filter in Hin as [Hacc _];
      destruct Hacc as (_ & _ & A3 & _ & A5).
    + destruct A3; congruence.
    + destruct A5; congruence.
  - apply (filter_engine_collapsed _ _ _ Hreg) in Hf
      as (_ & _ & _ & _ & _ & Hc & _).
    unfold metrics, column. rewrite Hc.
    rewrite decide_False; [done | apply not_elem_of_empty].
Qed.

Lemma header_metrics_witness :
  (filter_engine (json_normalize scenario) xrd_high_temp
   = Ok {| columns := columns (json_normalize scenario);
           rows := [flatten cell_A] |}
   ∧ col_cad ∈ columns (json_normalize scenario)
   ∧ col_max_temp ∈ columns (json_normalize scenario)
   ∧ regular (json_normalize scenario) xrd_high_temp)
  ∧ ∃ m, metrics {| columns := columns (json_normalize scenario);
                    rows := [flatten cell_A] |} = Ok m
      ∧ cells_found m = 1%nat
      ∧ (digital_twin_ready m ≤ cells_found m)%nat
      ∧ (high_temp_capable m ≤ cells_found m)%nat
      ∧ (digital_twin_only xrd_high_temp = true →
         digital_twin_ready m = cells_found m)
      ∧ (high_temp_only xrd_high_temp = true →
         high_temp_capable m = cells_found m).
Proof.
  assert (col_cad ∈ columns (json_normalize scenario)) as H1.
  { apply required_columns_json_normalize; [| done].
    apply elem_of_required_columns. tauto. }
  assert (col_max_temp ∈ columns (json_normalize scenario)) as H2.
  { apply col_max_temp_json_normalize. exists cell_A. split; [left | by eexists]. }
  assert (regular (json_normalize scenario) xrd_high_temp) as Hreg.
  { apply (bool_decide_unpack _). vm_compute. exact I. }
  split; [split; [exact scenario_xrd_high_temp |
                  split; [exact H1 | split; [exact H2 | exact Hreg]]] |].
  exact (proj1 (header_metrics _ _ _ scenario_xrd_high_temp H1 H2) Hreg).
Defined.

Example collapsed_metrics :
  metrics {| columns := ∅; rows := [] |}
  = Raise (KeyError "digital_twin.cad_available").
Proof. vm_compute. reflexivity. Qed.

Example scenario_metrics :
  metrics (json_normalize scenario)
  = Ok {| cells_found := 3; digital_twin_ready := 1; high_temp_capable := 1 |}.
Proof. vm_compute. reflexivity. Qed.

(** X7: the header metrics and the main table index columns that only
    exist when some entry carries the field and the filtered frame has kept
    its columns.  For the filtered frame of a registry, the metrics are
    computed exactly when no selection step met a frame without rows, the
    registry is non-empty and some entry has [max_temp_c]; the table is
    built exactly when, in addition, some entry has a contact e-mail, and
    then has one line per filtered row, in order.  Otherwise the access
    raises. *)
Theorem metrics_and_table_need_columns data c out :
  filter_engine (json_normalize data) c = Ok out →
  ((∃ m, metrics out = Ok m) ↔
     regular (json_normalize data) c
     ∧ data ≠ []
     ∧ ∃ e, e ∈ data ∧ is_Some (max_temp_c (operating_limits (specifications e))))
  ∧ ((∃ table, main_table out = Ok table) ↔
       regular (json_normalize data) c
       ∧ data ≠ []
       ∧ (∃ e, e ∈ data
               ∧ is_Some (max_temp_c (operating_limits (specifications e))))
       ∧ (∃ e, e ∈ data ∧ is_Some (contact_info e ≫= primary_email)))
  ∧ (∀ table, main_table out = Ok table → table = table_row <$> rows out)
  ∧ (¬ (∃ m, metrics out = Ok m) → ∃ key, metrics out = Raise (KeyError key))
  ∧ (¬ (∃ table, main_table out = Ok table) →
     ∃ key, main_table out = Raise (KeyError key)).
Proof.
  intros Hf. pose proof (filtered_columns _ _ _ Hf) as Hc.
  assert (∀ label, label ∈ required_columns →
            label ∈ columns out ↔ regular (json_normalize data) c ∧ data ≠ [])
    as Hreq.
  { intros label Hl. rewrite Hc.
    by rewrite (required_columns_json_normalize data label Hl). }
  assert (col_max_temp ∈ columns out ↔
          regular (json_normalize data) c
          ∧ ∃ e, e ∈ data
                 ∧ is_Some (max_temp_c (operating_limits (specifications e))))
    as Hmax by (rewrite Hc, col_max_temp_json_normalize; done).
  assert (col_email ∈ columns out ↔
          regular (json_normalize data) c
          ∧ ∃ e, e ∈ data ∧ is_Some (contact_info e ≫= primary_email))
    as Hmail by (rewrite Hc, col_email_json_normalize; done).
  assert ((∃ table, main_table out = Ok table) ↔
          ∀ label, label ∈ table_labels → label ∈ columns out) as Htable.
  { unfold main_table.
    destruct (filter (λ label, label ∉ columns out) table_labels)
      as [|label rest] eqn:E.
    - split; [intros _ | by eexists].
      intros label Hl. destruct (decide (label ∈ columns out)) as [?|Hn]; [done |].
      exfalso. eapply (filter_nil_not_elem_of _ _ label E); done.
    - split; [intros [? [=]] |]. intros Hall. exfalso.
      assert (label ∈ filter (λ label, label ∉ columns out) table_labels) as Hin
        by (rewrite E; left).
      apply list_elem_of_filter in Hin as [Hn Hl]. by apply Hn, Hall. }
  split; [| split; [| split; [| split]]].
  - split.
    + intros [m Hm]. apply metrics_Ok in Hm as (H1 & H2 & _).
      apply Hmax in H2 as [Hreg H2]. split; [done |]. split; [| done].
      apply (Hreq col_cad); [| done].
      apply elem_of_required_columns. tauto.
    + intros (Hreg & Hne & He). eexists. apply metrics_Ok.
      split; [| split; [| done]].
      * apply Hreq; [| done]. apply elem_of_required_columns. tauto.
      * by apply Hmax.
  - rewrite Htable. split.
    + intros Hall.
      assert (col_name ∈ columns out) as Hn by (apply Hall; left).
      apply Hreq in Hn as [Hreg Hne]; [| apply elem_of_required_columns; tauto].
      split; [done |]. split; [done |]. split.
      * apply Hmax, Hall. unfold table_labels. do 4 right. left.
      * apply Hmail, Hall. unfold table_labels. do 5 right. left.
    + intros (Hreg & Hne & H1 & H2) label Hl. unfold table_labels in Hl.
      apply elem_of_cons in Hl as [->|Hl];
        [apply Hreq; [apply elem_of_required_columns; tauto | done] |].
      apply elem_of_cons in Hl as [->|Hl];
        [apply Hreq; [apply elem_of_required_columns; tauto | done] |].
      apply elem_of_cons in Hl as [->|Hl];
        [apply Hreq; [apply elem_of_required_columns; tauto | done] |].
      apply elem_of_cons in Hl as [->|Hl];
        [apply Hreq; [apply elem_of_required_columns; tauto | done] |].
      apply elem_of_cons in Hl as [->|Hl]; [by apply Hmax |].
      apply list_elem_of_singleton in Hl as ->. by apply Hmail.
  - intros table Ht. unfold main_table in Ht.
    destruct (filter (λ label, label ∉ columns out) table_labels);
      [by injection Ht | discriminate].
  - intros Hno. unfold metrics, column in *.
    destruct (decide (col_cad ∈ columns out)); [| by eexists].
    destruct (decide (col_max_temp ∈ columns out)); [| by eexists].
    exfalso. apply Hno. by eexists.
  - intros Hno. unfold main_table in *.
    destruct (filter (λ label, label ∉ columns out) table_labels);
      [| by eexists].
    exfalso. apply Hno. by eexists.
Qed.

Lemma metrics_and_table_need_columns_witness :
  filter_engine (json_normalize scenario) xrd_high_temp
  = Ok {| columns := columns (json_normalize scenario);
          rows := [flatten cell_A] |}
  ∧ (∃ m, metrics {| columns := columns (json_normalize scenario);
                     rows := [flatten cell_A] |} = Ok m)
  ∧ ∃ key, main_table {| columns := columns (json_normalize scenario);
                         rows := [flatten cell_A] |} = Raise (KeyError key).
Proof.
  split; [exact scenario_xrd_high_temp |].
  destruct (metrics_and_table_need_columns scenario xrd_high_temp _
              scenario_xrd_high_temp) as (Hm & Ht & _ & _ & Hraise).
  split.
  - apply Hm. split; [apply (bool_decide_unpack _); vm_compute; exact I |].
    split; [done |]. exists cell_A. split; [left | by eexists].
  - apply Hraise. intros Hok.
    apply Ht in Hok as (_ & _ & _ & (e & He & Hmail)).
    unfold scenario in He.
    repeat (apply elem_of_cons in He as [->|He]; [by destruct Hmail |]).
    by apply elem_of_nil in He.
Defined.

Example scenario_table_raises :
  ∃ key, main_table (json_normalize scenario) = Raise (KeyError key).
Proof. eexists. vm_compute. reflexivity. Qed.

(** ** The cell selector and the comparison cards *)

Lemma elem_of_unique_from (seen l : list string) (x : string) :
  x ∈ unique_from seen l ↔ x ∈ l ∧ x ∉ seen.
Proof.
  revert seen. induction l as [|y l IH]; intros seen; cbn [unique_from].
  - split; [intros H; by apply elem_of_nil in H | intros [H _]; by apply elem_of_nil in H].
  - case_bool_decide as Hy.
    + rewrite IH, elem_of_cons. split; [tauto |].
      intros [[->|Hx] Hs]; [done | tauto].
    + rewrite !elem_of_cons, IH, not_elem_of_cons. split.
      * intros [->|(Hx & Hne & Hs)]; [split; [by left | done] |].
        split; [by right | done].
      * intros [[->|Hx] Hs]; [by left |].
        destruct (decide (x = y)) as [->|Hne]; [by left | right; tauto].
Qed.

Lemma NoDup_unique_from (seen l : list string) : NoDup (unique_from seen l).
Proof.
  revert seen. induction l as [|y l IH]; intros seen; cbn [unique_from].
  - constructor.
  - case_bool_decide; [apply IH |]. constructor; [| apply IH].
    rewrite elem_of_unique_from. intros [_ Hn]. apply Hn. left.
Qed.

Lemma head_unique (l : list string) : head (unique l) = head l.
Proof. destruct l; [done |]. unfold unique. cbn. done. Qed.

(** Reading one more name: it is appended unless it was seen before. *)
Lemma unique_from_snoc (seen l : list string) (x : string) :
  unique_from seen (l ++ [x])%list
  = if decide (x ∈ seen ∨ x ∈ l) then unique_from seen l
    else (unique_from seen l ++ [x])%list.
Proof.
  revert seen. induction l as [|y l IH]; intros seen;
    cbn [app unique_from].
  - case_bool_decide as Hx.
    + rewrite decide_True; [done | by left].
    + rewrite decide_False; [done |].
      intros [? | Hn]; [done | by apply elem_of_nil in Hn].
  - case_bool_decide as Hy; rewrite IH.
    + destruct (decide (x ∈ seen ∨ x ∈ l)) as [Hd | Hd].
      * rewrite decide_True; [done |].
        destruct Hd as [? | ?]; [by left | right; by right].
      * rewrite decide_False; [done |].
        intros [? | Hx]; [apply Hd; by left |].
        apply elem_of_cons in Hx as [-> | ?]; apply Hd; [by left | by right].
    + destruct (decide (x ∈ y :: seen ∨ x ∈ l)) as [Hd | Hd].
      * rewrite decide_True; [done |].
        destruct Hd as [Hx | ?]; [| right; by right].
        apply elem_of_cons in Hx as [-> | ?]; [right; left | by left].
      * rewrite decide_False; [done |].
        intros [? | Hx]; [apply Hd; left; by right |].
        apply elem_of_cons in Hx as [-> | ?]; apply Hd; [left; left | by right].
Qed.

Lemma sublist_unique_from (seen l : list string) :
  unique_from seen l `sublist_of` l.
Proof.
  revert seen. induction l as [|y l IH]; intros seen; cbn [unique_from];
    [done |].
  case_bool_decide; [apply sublist_cons | apply sublist_skip]; apply IH.
Qed.

(** X8: when no selection step met a frame without rows, the selector
    offers each name of the filtered frame once, in order of first
    appearance: the options are the names read from the first row to the
    last, each appended unless it was read before.  Its default is the name
    of the first filtered row, which is the first option, and there is no
    default when no row is left.  When a selection step met a frame without
    rows, reading the [name] column raises [KeyError]. *)
Theorem cell_selector_options data c out :
  filter_engine (json_normalize data) c = Ok out →
  data ≠ [] →
  (regular (json_normalize data) c →
   ∃ options default_names,
     cell_selector out = Ok (options, default_names)
     ∧ options = unique (r_name <$> rows out)
     ∧ NoDup options
     ∧ (∀ n, n ∈ options ↔ n ∈ r_name <$> rows out)
     ∧ options `sublist_of` (r_name <$> rows out)
     ∧ head options = r_name <$> head (rows out)
     ∧ default_names = (λ r, [r_name r]) <$> head (rows out)
     ∧ (rows out = [] → options = [] ∧ default_names = None))
  ∧ (¬ regular (json_normalize data) c →
     cell_selector out = Raise (KeyError col_name))
  ∧ unique [] = []
  ∧ (∀ names n, unique (names ++ [n])%list
                = if decide (n ∈ names) then unique names
                  else (unique names ++ [n])%list).
Proof.
  intros Hf Hne. split; [| split; [| split; [done |]]].
  - intros Hreg. apply (filter_engine_Ok _ _ _ Hreg) in Hf as (_ & Hc & _).
    eexists _, _. unfold cell_selector, column.
    rewrite decide_True.
    2:{ rewrite Hc. apply required_columns_json_normalize; [| done].
        apply elem_of_required_columns. tauto. }
    split; [reflexivity |]. split; [reflexivity |].
    split; [apply NoDup_unique_from |].
    split; [| split; [| split; [| split]]].
    + intros n. unfold unique. rewrite elem_of_unique_from. split; [tauto |].
      intros H. split; [done | apply not_elem_of_nil].
    + apply sublist_unique_from.
    + rewrite head_unique. by destruct (rows out).
    + by destruct (rows out).
    + intros ->. done.
  - intros Hreg. apply (filter_engine_collapsed _ _ _ Hreg) in Hf
      as (_ & _ & _ & _ & _ & Hc & _).
    unfold cell_selector, column. rewrite Hc.
    rewrite decide_False; [done | apply not_elem_of_empty].
  - intros names n. unfold unique. rewrite unique_from_snoc.
    destruct (decide (n ∈ names)) as [Hin | Hout].
    + rewrite decide_True; [done | by right].
    + rewrite decide_False; [done |].
      intros [Hn | ?]; [by apply elem_of_nil in Hn | done].
Qed.

Lemma cell_selector_options_witness :
  (filter_engine (json_normalize scenario) xrd_only
   = Ok {| columns := columns (json_normalize scenario);
           rows := [flatten cell_A; flatten cell_C] |}
   ∧ scenario ≠ []
   ∧ regular (json_normalize scenario) xrd_only)
  ∧ cell_selector {| columns := columns (json_normalize scenario);
                     rows := [flatten cell_A; flatten cell_C] |}
    = Ok (["A"; "C"], Some ["A"]).
Proof.
  assert (regular (json_normalize scenario) xrd_only) as Hreg.
  { apply (bool_decide_unpack _). vm_compute. exact I. }
  split; [split; [exact scenario_xrd | split; [done | exact Hreg]] |].
  destruct (cell_selector_options scenario xrd_only _ scenario_xrd ltac:(done))
    as (Hsel & _).
  destruct (Hsel Hreg) as (options & default_names & -> & -> & _ & _ & _ & _ & -> & _).
  reflexivity.
Defined.

Example unique_first_appearance :
  unique ["B"; "A"; "B"; "C"; "A"] = ["B"; "A"; "C"].
Proof. reflexivity. Qed.

Lemma comparison_Ok data selection :
  (∀ n, n ∈ selection → n ∈ name <$> data) →
  ∃ cards, comparison data selection = Ok cards
    ∧ card_title <$> cards = selection
    ∧ Forall2 (λ n card, ∃ e, next_named data n = Ok e
                              ∧ card = card_of TECHNIQUE_DEFINITIONS e)
        selection cards.
Proof.
  induction selection as [|n selection IH]; intros Hall.
  - exists []. repeat split. constructor.
  - destruct (next_named_Ok data n) as (before & e & after & _ & Hn & _ & Hnext);
      [apply Hall; left |].
    destruct IH as (cards & Hc & Ht & Hf); [intros; apply Hall; by right |].
    exists (card_of TECHNIQUE_DEFINITIONS e :: cards). cbn [comparison].
    rewrite Hnext. cbn. rewrite Hc. cbn. repeat split.
    + cbn [fmap list_fmap]. cbn [card_of card_title]. by rewrite Hn, <- Ht.
    + constructor; [by exists e | done].
Qed.

Lemma comparison_Raise data selection n :
  n ∈ selection → n ∉ name <$> data →
  comparison data selection = Raise StopIteration.
Proof.
  induction selection as [|n' selection IH]; intros Hin Hout;
    [by apply elem_of_nil in Hin |].
  cbn [comparison]. destruct (decide (n' ∈ name <$> data)) as [Hn'|Hn'].
  - destruct (next_named_Ok data n' Hn') as (? & e & ? & _ & _ & _ & ->). cbn.
    apply elem_of_cons in Hin as [->|Hin]; [done |].
    by rewrite IH.
  - by rewrite next_named_Raise.
Qed.

(** X9: the cards are built exactly when every selected name is the name
    of some registry entry; there is then one card per selected name, in
    selection order, titled with that name and made from the first entry
    bearing it.  Every choice among the selector's options is such a
    selection, so it never raises. *)
Theorem comparison_cards data selection :
  ((∃ cards, comparison data selection = Ok cards) ↔
     ∀ n, n ∈ selection → n ∈ name <$> data)
  ∧ (∀ cards, comparison data selection = Ok cards →
       card_title <$> cards = selection
       ∧ Forall2 (λ n card, ∃ e, next_named data n = Ok e
                                 ∧ card = card_of TECHNIQUE_DEFINITIONS e)
           selection cards)
  ∧ (∀ c out options default_names,
       filter_engine (json_normalize data) c = Ok out →
       cell_selector out = Ok (options, default_names) →
       (∀ n, n ∈ selection → n ∈ options) →
       ∃ cards, comparison data selection = Ok cards
                ∧ length cards = length selection).
Proof.
  assert ((∃ cards, comparison data selection = Ok cards) →
          ∀ n, n ∈ selection → n ∈ name <$> data) as Hnec.
  { intros [cards Hc] n Hn.
    destruct (decide (n ∈ name <$> data)) as [?|Hout]; [done |].
    rewrite (comparison_Raise data selection n Hn Hout) in Hc. discriminate. }
  split; [| split].
  - split; [exact Hnec |]. intros Hall.
    destruct (comparison_Ok data selection Hall) as (cards & Hc & _). by exists cards.
  - intros cards Hc.
    destruct (comparison_Ok data selection) as (cards' & Hc' & Ht & Hf).
    { apply Hnec. by exists cards. }
    rewrite Hc in Hc'. injection Hc' as <-. done.
  - intros c out options default_names Hf Hsel Hsub.
    destruct (comparison_Ok data selection) as (cards & Hc & Ht & _).
    { intros n Hn. apply Hsub in Hn.
      unfold cell_selector in Hsel. apply bind_Ok in Hsel as (names & Hcol & [= <- _]).
      apply column_Ok in Hcol as [_ ->].
      unfold unique in Hn. apply elem_of_unique_from in Hn as [Hn _].
      apply filter_engine_rows in Hf as (_ & _ & Hr). rewrite Hr in Hn.
      apply list_elem_of_fmap in Hn as (r & -> & Hin).
      apply list_elem_of_filter in Hin as [_ Hin]. cbn [json_normalize rows] in Hin.
      apply list_elem_of_fmap in Hin as (e & -> & He).
      apply list_elem_of_fmap. by exists e. }
    exists cards. split; [done |]. by rewrite <- Ht, length_fmap.
Qed.

Lemma comparison_cards_witness :
  ∃ cards, comparison scenario ["C"; "A"] = Ok cards.
Proof.
  apply (comparison_cards scenario ["C"; "A"]). intros n Hn.
  apply elem_of_cons in Hn as [->|Hn]; [do 2 right; left |].
  apply list_elem_of_singleton in Hn as ->. left.
Defined.

(** X10: the cards and the filters read the optional fields with the same
    defaults: an entry passes the high-temperature filter exactly when its
    card shows a maximum temperature of at least 100, the pressure filter
    exactly when its card says "Yes" for pressure control, and the CAD
    filter exactly when its card says "Yes" for CAD. *)
Theorem cards_agree_with_filters data glossary e :
  e ∈ data →
  (∀ out, filter_engine (json_normalize data) high_temp_alone = Ok out →
     flatten e ∈ rows out ↔ 100 ≤ card_max_temp (card_of glossary e))
  ∧ (∀ out, filter_engine (json_normalize data) pressure_only = Ok out →
       flatten e ∈ rows out ↔ card_pressure_control (card_of glossary e) = "Yes")
  ∧ (∀ out, filter_engine (json_normalize data) cad_only = Ok out →
       flatten e ∈ rows out ↔ card_cad_available (card_of glossary e) = "Yes").
Proof.
  intros He.
  assert (flatten e ∈ rows (json_normalize data)) as Hin
    by (apply list_elem_of_fmap; by exists e).
  assert (∀ b, yes_no b = "Yes" ↔ b = true) as Hyes by (by intros []).
  split; [| split]; intros out Hf;
    apply filter_engine_rows in Hf as (_ & _ & ->);
    rewrite list_elem_of_filter; unfold accepts; cbn.
  - split; [intros [(_ & _ & _ & _ & [?|?]) _]; done |].
    intros H. split; [| done]. repeat split; try (by left). by right.
  - rewrite Hyes. split; [intros [(_ & _ & _ & [?|?] & _) _]; done |].
    intros H. split; [| done]. repeat split; try (by left). by right.
  - rewrite Hyes. split; [intros [(_ & _ & [?|?] & _) _]; done |].
    intros H. split; [| done]. repeat split; try (by left). by right.
Qed.

Lemma cards_agree_with_filters_witness :
  cell_B ∈ scenario
  ∧ ∀ out, filter_engine (json_normalize scenario) high_temp_alone = Ok out →
      flatten cell_B ∈ rows out
      ↔ 100 ≤ card_max_temp (card_of TECHNIQUE_DEFINITIONS cell_B).
Proof.
  assert (cell_B ∈ scenario) as Hin by (right; left).
  split; [exact Hin |].
  apply (cards_agree_with_filters scenario TECHNIQUE_DEFINITIONS cell_B Hin).
Defined.

(** ** The glossary: exact lookup and partial match *)

Lemma append_empty_r (s : string) : s +:+ "" = s.
Proof. induction s as [|a s IH]; [done |]. by rewrite append_cons, IH. Qed.

Lemma key_matches_refl (key : string) : key_matches key key.
Proof.
  apply contains_app. exists "", "". by rewrite append_empty, append_empty_r.
Qed.

Lemma getitem_Ok glossary key val :
  NoDup (glossary.*1) → (key, val) ∈ glossary → getitem glossary key = Ok val.
Proof.
  induction glossary as [|[k v] glossary IH]; intros Hnd Hin;
    [by apply elem_of_nil in Hin |].
  cbn [fmap list_fmap fst] in Hnd. apply NoDup_cons in Hnd as [Hk Hnd].
  cbn [getitem]. apply elem_of_cons in Hin as [[= -> ->]|Hin].
  - by rewrite bool_decide_eq_true_2.
  - rewrite bool_decide_eq_false_2; [by apply IH |].
    intros ->. apply Hk. apply list_elem_of_fmap. by exists (key, val).
Qed.

Lemma getitem_Raise glossary term :
  term ∉ glossary.*1 → getitem glossary term = Raise (KeyError term).
Proof.
  induction glossary as [|[k v] glossary IH]; intros Hout; [done |].
  cbn [fmap list_fmap fst] in Hout. apply not_elem_of_cons in Hout as [Hne Hout].
  cbn [getitem]. rewrite bool_decide_eq_false_2 by done. by apply IH.
Qed.

(** X11: the sidebar dictionary offers exactly the glossary keys, in
    ascending order, and the exact lookup of an offered term returns its
    definition; a term that is no key raises [KeyError]. *)
Theorem dictionary_lookup (glossary : list (string * string)) :
  NoDup (glossary.*1) →
  Sorted string_le (glossary_terms glossary)
  ∧ (∀ term, term ∈ glossary_terms glossary ↔ term ∈ glossary.*1)
  ∧ (∀ key val, (key, val) ∈ glossary → getitem glossary key = Ok val)
  ∧ (∀ term, term ∉ glossary_terms glossary →
       getitem glossary term = Raise (KeyError term)).
Proof.
  intros Hnd. unfold glossary_terms, sorted.
  split; [apply (Sorted_merge_sort string_le) |].
  split; [intros term; by rewrite merge_sort_Permutation |].
  split; [intros key val; by apply getitem_Ok |].
  intros term Hout. apply getitem_Raise. by rewrite merge_sort_Permutation in Hout.
Qed.

Lemma dictionary_lookup_witness :
  NoDup (TECHNIQUE_DEFINITIONS.*1)
  ∧ getitem TECHNIQUE_DEFINITIONS "INS"
    = Ok "Inelastic Neutron Scattering. Probes vibrational modes to investigate material dynamics.".
Proof.
  assert (NoDup (TECHNIQUE_DEFINITIONS.*1)) as Hnd.
  { apply (bool_decide_unpack _). vm_compute. exact I. }
  split; [exact Hnd |].
  apply (dictionary_lookup TECHNIQUE_DEFINITIONS Hnd).
  apply (bool_decide_unpack _). vm_compute. exact I.
Defined.

(** X12: a technique named exactly like a glossary key never falls back to
    "Definition unavailable." for lack of a match: its annotation is the
    definition of a key contained in it; it is the key's own definition
    when no other key of the glossary is contained in it, and then the
    partial match and the exact lookup agree. *)
Theorem annotation_of_glossary_key glossary key val :
  NoDup (glossary.*1) →
  (key, val) ∈ glossary →
  (∃ key' val', (key', val') ∈ glossary
                ∧ key_matches key key'
                ∧ describe glossary key = val')
  ∧ ((∀ key', key' ∈ glossary.*1 → key_matches key key' → key' = key) →
     describe glossary key = val ∧ getitem glossary key = Ok (describe glossary key)).
Proof.
  intros Hnd Hin.
  assert (∃ key' val', (key', val') ∈ glossary
                       ∧ key_matches key key'
                       ∧ describe glossary key = val') as Hsome.
  { unfold describe.
    destruct (glossary_scan_first_match glossary key definition_unavailable)
      as [(before & k & v & after & Hg & Hk & _ & Hv)|[Hnone _]].
    - exists k, v. split; [| done]. rewrite Hg.
      apply elem_of_app. right. left.
    - exfalso. apply (Hnone (key, val) Hin). apply key_matches_refl. }
  split; [exact Hsome |]. intros Honly.
  destruct Hsome as (key' & val' & Hin' & Hm & Hd).
  assert (key' = key) as ->.
  { apply Honly; [| done]. apply list_elem_of_fmap. by exists (key', val'). }
  assert ((key, val') = (key, val)) as [= ->]
    by (by apply (NoDup_fmap_eq fst glossary)).
  split; [done |]. rewrite Hd. by apply getitem_Ok.
Qed.

Lemma annotation_of_glossary_key_witness :
  (NoDup ([("XRD", "d1"); ("XRD-CT", "d2")].*1)
   ∧ ("XRD-CT", "d2") ∈ [("XRD", "d1"); ("XRD-CT", "d2")])
  ∧ ∃ key' val', (key', val') ∈ [("XRD", "d1"); ("XRD-CT", "d2")]
                 ∧ key_matches "XRD-CT" key'
                 ∧ describe [("XRD", "d1"); ("XRD-CT", "d2")] "XRD-CT" = val'.
Proof.
  assert (NoDup ([("XRD", "d1"); ("XRD-CT", "d2")].*1)) as Hnd.
  { apply (bool_decide_unpack _). vm_compute. exact I. }
  assert (("XRD-CT", "d2") ∈ [("XRD", "d1"); ("XRD-CT", "d2")]) as Hin
    by (right; left).
  split; [by split |].
  apply (annotation_of_glossary_key _ "XRD-CT" "d2" Hnd Hin).
Defined.

(** X13: in the glossary of the script, the annotation of a technique named
    like a glossary key is that key's definition for every key but two:
    "XRD-CT" gets the definition of "XRD" and "Bragg Edge Imaging" that of
    "Imaging", each an earlier key contained in it. *)
Theorem shadowed_glossary_keys :
  (filter (λ kv, describe TECHNIQUE_DEFINITIONS kv.1 ≠ kv.2)
     TECHNIQUE_DEFINITIONS).*1
  = ["XRD-CT"; "Bragg Edge Imaging"]
  ∧ getitem TECHNIQUE_DEFINITIONS "XRD"
    = Ok (describe TECHNIQUE_DEFINITIONS "XRD-CT")
  ∧ getitem TECHNIQUE_DEFINITIONS "Imaging"
    = Ok (describe TECHNIQUE_DEFINITIONS "Bragg Edge Imaging").
Proof. repeat split; vm_compute; reflexivity. Qed.

(** ** More on the download *)

Lemma filtered_json_download_Ok data c out :
  regular (json_normalize data) c →
  filter_engine (json_normalize data) c = Ok out →
  data ≠ [] →
  filtered_json_download data out
  = Ok (filter (λ entry, id entry ∈ r_id <$> rows out) data)
  ∧ rows out = flatten <$> filter (λ entry, accepts c (flatten entry)) data.
Proof.
  intros Hreg Hf Hne.
  apply (filter_engine_Ok _ _ _ Hreg) in Hf as (_ & Hc & Hr). split.
  - unfold filtered_json_download, column. rewrite Hc, decide_True; [done |].
    apply required_columns_json_normalize; [| done].
    apply elem_of_required_columns. tauto.
  - rewrite Hr. cbn [json_normalize rows]. apply filter_fmap_list.
Qed.

(** X14: when no selection step met a frame without rows, the download
    never loses a filtered cell, with or without unique ids: it is a
    sublist of the registry that holds every entry whose row was kept, and
    every entry in it shares its id with a kept row; it has at least as
    many entries as there are filtered rows, and exactly as many when ids
    are unique.  When a selection step met a frame without rows, the
    filtered frame has no [id] column and the download raises [KeyError]. *)
Theorem download_covers_filtered data c out :
  filter_engine (json_normalize data) c = Ok out →
  data ≠ [] →
  (regular (json_normalize data) c →
   ∃ exported,
     filtered_json_download data out = Ok exported
     ∧ exported `sublist_of` data
     ∧ (∀ e, e ∈ data → flatten e ∈ rows out → e ∈ exported)
     ∧ (∀ e, e ∈ exported → ∃ r, r ∈ rows out ∧ r_id r = id e)
     ∧ (length (rows out) ≤ length exported)%nat
     ∧ (NoDup (id <$> data) → length exported = length (rows out)))
  ∧ (¬ regular (json_normalize data) c →
     filtered_json_download data out = Raise (KeyError col_id)).
Proof.
  intros Hf Hne. split; intros Hreg.
  - destruct (filtered_json_download_Ok data c out Hreg Hf Hne) as [Hd Hrows].
    eexists. split; [exact Hd |]. split; [apply sublist_filter |].
    split; [| split; [| split]].
    + intros e He Hin. apply list_elem_of_filter. split; [| done].
      apply list_elem_of_fmap. by exists (flatten e).
    + intros e He. apply list_elem_of_filter in He as [Hid _].
      apply list_elem_of_fmap in Hid as (r & Hid & Hr). by exists r.
    + rewrite Hrows at 1. rewrite length_fmap.
      rewrite (filter_elem_iff (λ entry, accepts c (flatten entry))
                 (λ entry, accepts c (flatten entry) ∧ entry ∈ data))
        by (intros; tauto).
      apply sublist_length, filter_sublist_mono.
      intros e [Hacc He]. apply list_elem_of_fmap. exists (flatten e).
      split; [done |]. rewrite Hrows. apply list_elem_of_fmap. exists e.
      split; [done |]. by apply list_elem_of_filter.
    + intros Hnd. apply filter_engine_rows in Hf as (_ & _ & Hr).
      rewrite Hr. cbn [json_normalize rows].
      rewrite select_by_visible_ids by done.
      by rewrite filter_fmap_list, length_fmap.
  - apply (filter_engine_collapsed _ _ _ Hreg) in Hf
      as (_ & _ & _ & _ & _ & Hc & _).
    unfold filtered_json_download, column. rewrite Hc.
    rewrite decide_False; [done | apply not_elem_of_empty].
Qed.

Lemma download_covers_filtered_witness :
  (filter_engine (json_normalize [twin_1; twin_2]) cad_only
   = Ok {| columns := columns (json_normalize [twin_1; twin_2]);
           rows := [flatten twin_2] |}
   ∧ [twin_1; twin_2] ≠ []
   ∧ regular (json_normalize [twin_1; twin_2]) cad_only)
  ∧ ∃ exported,
      filtered_json_download [twin_1; twin_2]
        {| columns := columns (json_normalize [twin_1; twin_2]);
           rows := [flatten twin_2] |} = Ok exported
      ∧ exported `sublist_of` [twin_1; twin_2]
      ∧ (∀ e, e ∈ [twin_1; twin_2] → flatten e ∈ [flatten twin_2] → e ∈ exported)
      ∧ (∀ e, e ∈ exported → ∃ r, r ∈ [flatten twin_2] ∧ r_id r = id e)
      ∧ (1 ≤ length exported)%nat
      ∧ (NoDup (id <$> [twin_1; twin_2]) → length exported = 1%nat).
Proof.
  assert (regular (json_normalize [twin_1; twin_2]) cad_only) as Hreg.
  { apply (bool_decide_unpack _). vm_compute. exact I. }
  split; [split; [exact twins_cad_only | split; [done | exact Hreg]] |].
  exact (proj1 (download_covers_filtered [twin_1; twin_2] cad_only _
                  twins_cad_only ltac:(done)) Hreg).
Defined.

Example collapsed_download :
  filtered_json_download staffed {| columns := ∅; rows := [] |}
  = Raise (KeyError "id").
Proof. vm_compute. reflexivity. Qed.

(** X15: the download of a non-empty result is a fixed point of the
    filter: for unique ids, loading the download and applying the same
    criteria keeps every row, and these are the rows of the filtered frame;
    every column the criteria need is there, since each exported entry
    carries the fields it was selected on. *)
Theorem download_refiltered data c out :
  NoDup (id <$> data) →
  filter_engine (json_normalize data) c = Ok out →
  rows out ≠ [] →
  ∃ exported df out',
    filtered_json_download data out = Ok exported
    ∧ load_registry (json_dumps exported) = Loaded df (RawList exported)
    ∧ filter_engine df c = Ok out'
    ∧ rows out' = rows out
    ∧ rows out' = rows df.
Proof.
  intros Hnd Hf Hrows.
  assert (data ≠ []) as Hne.
  { intros ->. apply filter_engine_rows in Hf as (_ & _ & Hr). by rewrite Hr in Hrows. }
  destruct (regular_of_rows _ _ _ Hf Hrows) as [Hreg _].
  destruct (filtered_json_download_Ok data c out Hreg Hf Hne) as [Hd Hr].
  pose proof Hf as Hf0. apply filter_engine_rows in Hf0 as (_ & _ & Hr0).
  set (exported := filter (λ entry, accepts c (flatten entry)) data) in *.
  assert (filter (λ entry, id entry ∈ r_id <$> rows out) data = exported) as Hexp.
  { rewrite Hr0. cbn [json_normalize rows]. by apply select_by_visible_ids. }
  rewrite Hexp in Hd.
  assert (∀ e, e ∈ exported → accepts c (flatten e)) as Hacc.
  { intros e He. by apply list_elem_of_filter in He as [? _]. }
  assert (exported ≠ []) as Hne'.
  { intros Hnil. by rewrite Hr, Hnil in Hrows. }
  assert (rows (json_normalize exported)
          = filter (accepts c) (rows (json_normalize exported))) as Hfix.
  { symmetry. apply filter_all_elem. intros r Hin. cbn [json_normalize rows] in Hin.
    apply list_elem_of_fmap in Hin as (e & -> & He). by apply Hacc. }
  exists exported, (json_normalize exported), (json_normalize exported).
  split; [exact Hd |]. split; [reflexivity |].
  split; [| split; [by rewrite Hr | done]].
  apply filter_engine_Ok.
  { split; right; [by destruct exported |].
    destruct exported as [|e0 rest] eqn:E; [done |].
    assert (accepts c (flatten e0)) as (A1 & _) by (apply Hacc; left).
    cbn [json_normalize rows fmap list_fmap].
    rewrite filter_cons_True by done. done. }
  split; [| split; [done | exact Hfix]].
  destruct exported as [|e0 rest] eqn:E; [done |].
  assert (accepts c (flatten e0)) as (A1 & A2 & A3 & A4 & A5)
    by (apply Hacc; left).
  assert (∀ label, label ∈ required_columns →
            label ∈ columns (json_normalize (e0 :: rest))) as Hreq.
  { intros label Hl. by apply required_columns_json_normalize. }
  apply needed_columns_spec. repeat split.
  - right. apply Hreq, elem_of_required_columns. tauto.
  - right. apply Hreq, elem_of_required_columns. tauto.
  - right. apply Hreq, elem_of_required_columns. tauto.
  - destruct A4 as [?|A4]; [by left | right].
    apply col_pressure_json_normalize. exists e0. split; [left |].
    cbn [flatten r_pressure_control] in A4.
    destruct (pressure_control (operating_limits (specifications e0)));
      [by eexists | discriminate].
  - destruct A5 as [?|A5]; [by left | right].
    apply col_max_temp_json_normalize. exists e0. split; [left |].
    cbn [flatten r_max_temp_c] in A5.
    destruct (max_temp_c (operating_limits (specifications e0)));
      [by eexists | cbn in A5; lia].
Qed.

Lemma download_refiltered_witness :
  (NoDup (id <$> scenario)
   ∧ filter_engine (json_normalize scenario) xrd_high_temp
     = Ok {| columns := columns (json_normalize scenario);
             rows := [flatten cell_A] |}
   ∧ [flatten cell_A] ≠ [])
  ∧ ∃ exported df out',
      filtered_json_download scenario
        {| columns := columns (json_normalize scenario);
           rows := [flatten cell_A] |} = Ok exported
      ∧ load_registry (json_dumps exported) = Loaded df (RawList exported)
      ∧ filter_engine df xrd_high_temp = Ok out'
      ∧ rows out' = [flatten cell_A]
      ∧ rows out' = rows df.
Proof.
  assert (NoDup (id <$> scenario)) as Hnd.
  { apply (bool_decide_unpack _). vm_compute. exact I. }
  split; [split; [exact Hnd | split; [exact scenario_xrd_high_temp | done]] |].
  exact (download_refiltered scenario xrd_high_temp _ Hnd
           scenario_xrd_high_temp ltac:(done)).
Defined.

(** ** More on the matrix *)

Lemma filtered_names_in_registry data c out (n : string) :
  filter_engine (json_normalize data) c = Ok out →
  n ∈ r_name <$> rows out → n ∈ name <$> data.
Proof.
  intros Hf Hn. apply filter_engine_rows in Hf as (_ & _ & Hr). rewrite Hr in Hn.
  apply list_elem_of_fmap in Hn as (r & -> & Hin).
  apply list_elem_of_filter in Hin as [_ Hin]. cbn [json_normalize rows] in Hin.
  apply list_elem_of_fmap in Hin as (e & -> & He).
  apply list_elem_of_fmap. by exists e.
Qed.

Lemma matrix_presence_aux data c out techs :
  regular (json_normalize data) c →
  filter_engine (json_normalize data) c = Ok out →
  ∃ matrix,
    technique_matrix data out techs = Ok matrix
    ∧ (df_matrix matrix = None ↔ rows out = []).
Proof.
  intros Hreg Hf. eexists. split.
  { apply technique_matrix_Ok.
    destruct (filtered_frame_has_name data c out Hreg Hf) as [Hc | ->];
      [by left | by right]. }
  split.
  - intros Hnone. destruct (rows out) as [|r rest] eqn:E; [done |]. exfalso.
    assert (r_name r ∈ name <$> data) as Hn.
    { apply (filtered_names_in_registry data c out _ Hf). rewrite E. left. }
    apply list_elem_of_fmap in Hn as (e & Hn & He).
    assert (e ∈ filter (λ entry, name entry ∈ r_name <$> r :: rest) data) as Hin.
    { apply list_elem_of_filter. split; [| done]. rewrite <- Hn. left. }
    destruct (filter (λ entry, name entry ∈ r_name <$> r :: rest) data);
      [by apply elem_of_nil in Hin | discriminate].
  - intros ->. cbn [fmap list_fmap].
    rewrite filter_none; [done |]. intros e _ H. by apply elem_of_nil in H.
Qed.

(** X16: when no selection step met a frame without rows, the matrix is
    shown exactly when the filters leave a row.  It has at least one row
    per filtered row, and exactly one per filtered row when the names of
    the registry are pairwise distinct.  When a selection step met a frame
    without rows, building the matrix raises [KeyError] on the [name]
    column. *)
Theorem matrix_presence data c out techs :
  filter_engine (json_normalize data) c = Ok out →
  (regular (json_normalize data) c →
   ∃ matrix,
     technique_matrix data out techs = Ok matrix
     ∧ (df_matrix matrix = None ↔ rows out = [])
     ∧ (length (rows out) ≤ length matrix)%nat
     ∧ (NoDup (name <$> data) → length matrix = length (rows out)))
  ∧ (¬ regular (json_normalize data) c →
     technique_matrix data out techs = Raise (KeyError col_name)).
Proof.
  intros Hf. split; intros Hreg.
  - assert (rows out
            = flatten <$> filter (λ entry, accepts c (flatten entry)) data)
      as Hrows.
    { apply filter_engine_rows in Hf as (_ & _ & ->). cbn [json_normalize rows].
      apply filter_fmap_list. }
    eexists. split.
    { apply technique_matrix_Ok.
      destruct (filtered_frame_has_name data c out Hreg Hf) as [Hc | ->];
        [by left | by right]. }
    set (shown := filter (λ entry, name entry ∈ r_name <$> rows out) data).
    assert (filter (λ entry, accepts c (flatten entry)) data `sublist_of` shown)
      as Hsub.
    { unfold shown.
      rewrite (filter_elem_iff (λ entry, accepts c (flatten entry))
                 (λ entry, accepts c (flatten entry) ∧ entry ∈ data))
        by (intros; tauto).
      apply filter_sublist_mono. intros e [Hacc He].
      apply list_elem_of_fmap. exists (flatten e). split; [done |].
      rewrite Hrows. apply list_elem_of_fmap. exists e.
      split; [done |]. by apply list_elem_of_filter. }
    split; [| split].
    + split.
      * intros Hnone. destruct shown as [|e rest] eqn:E; [| discriminate].
        apply sublist_nil_r in Hsub. by rewrite Hrows, Hsub.
      * intros Hnil. unfold shown. rewrite Hnil. cbn [fmap list_fmap].
        rewrite filter_none; [done |]. intros e _ H. by apply elem_of_nil in H.
    + rewrite length_fmap, Hrows, length_fmap. by apply sublist_length.
    + intros Hnd. rewrite !length_fmap. unfold shown. f_equal.
      rewrite Hrows, length_fmap. f_equal.
      apply filter_elem_iff. intros e He. split.
      * intros Hn. apply list_elem_of_fmap in Hn as (r & Hn & Hr).
        apply list_elem_of_fmap in Hr as (e' & -> & He').
        apply list_elem_of_filter in He' as [Hacc He'].
        assert (e = e') as -> by (by apply (NoDup_fmap_eq name data)). done.
      * intros Hacc. apply list_elem_of_fmap. exists (flatten e). split; [done |].
        apply list_elem_of_fmap. exists e.
        split; [done |]. by apply list_elem_of_filter.
  - destruct (collapsed_frame_of_registry data c out Hreg Hf)
      as (Hne & Hc & _).
    destruct data as [|entry data]; [done |].
    cbn [technique_matrix]. unfold column. rewrite Hc.
    rewrite decide_False; [done | apply not_elem_of_empty].
Qed.

Lemma matrix_presence_witness :
  (filter_engine (json_normalize [twin_1; twin_2]) cad_only
   = Ok {| columns := columns (json_normalize [twin_1; twin_2]);
           rows := [flatten twin_2] |}
   ∧ regular (json_normalize [twin_1; twin_2]) cad_only)
  ∧ ∃ matrix,
      technique_matrix [twin_1; twin_2]
        {| columns := columns (json_normalize [twin_1; twin_2]);
           rows := [flatten twin_2] |} ["SANS"; "XRD"] = Ok matrix
      ∧ (df_matrix matrix = None ↔ [flatten twin_2] = [])
      ∧ (1 ≤ length matrix)%nat
      ∧ (NoDup (name <$> [twin_1; twin_2]) → length matrix = 1%nat).
Proof.
  assert (regular (json_normalize [twin_1; twin_2]) cad_only) as Hreg.
  { apply (bool_decide_unpack _). vm_compute. exact I. }
  split; [split; [exact twins_cad_only | exact Hreg] |].
  exact (proj1 (matrix_presence [twin_1; twin_2] cad_only _ ["SANS"; "XRD"]
                  twins_cad_only) Hreg).
Defined.

Lemma df_matrix_Some (matrix : list (gmap string MatrixCell)) :
  matrix ≠ [] →
  df_matrix matrix
  = Some {| m_index := (λ row, row !! "Cell") <$> matrix;
            m_columns := ⋃ (dom <$> matrix) ∖ {[ "Cell" ]};
            m_cells := delete "Cell" <$> matrix |}.
Proof. by destruct matrix. Qed.

(** X17: when no technique of the registry is called "Cell" and the
    filters leave a row, the matrix is indexed by the names of the entries
    shown, its columns are exactly the technique names of the whole
    registry, whatever the criteria, and the cell of an entry under a
    technique tells whether the entry lists that technique. *)
Theorem matrix_columns_and_cells data c out techs :
  filter_engine (json_normalize data) c = Ok out →
  all_techniques (json_normalize data) = Ok techs →
  "Cell" ∉ techs →
  rows out ≠ [] →
  ∃ matrix m,
    technique_matrix data out techs = Ok matrix
    ∧ df_matrix matrix = Some m
    ∧ (∀ t, t ∈ m_columns m ↔ ∃ e, e ∈ data ∧ t ∈ techniques (compatibility e))
    ∧ m_index m
      = (λ e, Some (Label (name e)))
          <$> filter (λ entry, name entry ∈ r_name <$> rows out) data
    ∧ ∀ i e row t,
        filter (λ entry, name entry ∈ r_name <$> rows out) data !! i = Some e →
        m_cells m !! i = Some row →
        t ∈ m_columns m →
        row !! t = Some (Flag (bool_decide (t ∈ techniques (compatibility e)))).
Proof.
  intros Hf Hall Hcell Hrows.
  set (shown := filter (λ entry, name entry ∈ r_name <$> rows out) data).
  assert (technique_matrix data out techs = Ok (matrix_row techs <$> shown))
    as Hm.
  { apply technique_matrix_Ok.
    destruct (regular_of_rows _ _ _ Hf Hrows) as [Hreg _].
    destruct (filtered_frame_has_name data c out Hreg Hf) as [Hc | ->];
      [by left | by right]. }
  assert (shown ≠ []) as Hshown.
  { destruct (rows out) as [|r rest] eqn:E; [done |].
    assert (r ∈ rows out) as Hr by (rewrite E; left).
    pose proof Hf as Hf'. apply filter_engine_rows in Hf' as (_ & _ & Hr').
    rewrite Hr' in Hr. apply list_elem_of_filter in Hr as [_ Hr].
    cbn [json_normalize rows] in Hr.
    apply list_elem_of_fmap in Hr as (e & -> & He).
    assert (e ∈ shown) as Hin.
    { apply list_elem_of_filter. split; [| done].
      apply list_elem_of_fmap. exists (flatten e). split; [done | left]. }
    intros Hnil. rewrite Hnil in Hin. by apply elem_of_nil in Hin. }
  assert (matrix_row techs <$> shown ≠ []) as Hrowsne
    by (by destruct shown).
  pose proof (df_matrix_Some _ Hrowsne) as Hdf.
  eexists _, _. split; [exact Hm |]. split; [exact Hdf |].
  pose proof (df_matrix_columns techs shown _ Hcell Hdf) as Hcols.
  cbn [m_columns m_index m_cells] in *.
  assert (∀ t, t ∈ techs ↔ ∃ e, e ∈ data ∧ t ∈ techniques (compatibility e))
    as Htechs.
  { intros t. unfold all_techniques in Hall.
    apply bind_Ok in Hall as (subs & Hcol & [= <-]).
    apply column_Ok in Hcol as [_ ->]. cbn [json_normalize rows].
    rewrite (proj2 (proj2 (sorted_set_spec _))). split.
    - intros (sub & Hs & Ht). apply list_elem_of_fmap in Hs as (r & -> & Hr).
      apply list_elem_of_fmap in Hr as (e & -> & He). by exists e.
    - intros (e & He & Ht). exists (techniques (compatibility e)).
      split; [| done]. apply list_elem_of_fmap. exists (flatten e).
      split; [done |]. apply list_elem_of_fmap. by exists e. }
  split; [| split].
  - intros t. by rewrite Hcols, elem_of_list_to_set.
  - rewrite <- list_fmap_compose. apply list_fmap_ext. intros i e _. cbn.
    apply (matrix_row_columns techs e Hcell).
  - intros i e row t He Hrow Ht.
    rewrite <- list_fmap_compose, list_lookup_fmap in Hrow.
    fold shown in He. rewrite He in Hrow. injection Hrow as <-. cbn.
    rewrite Hcols, elem_of_list_to_set in Ht.
    by apply (matrix_row_columns techs e Hcell).
Qed.

Example scenario_techniques_without_Cell :
  all_techniques (json_normalize scenario) = Ok ["SANS"; "XAS"; "XRD"]
  ∧ "Cell" ∉ ["SANS"; "XAS"; "XRD"].
Proof.
  split; [vm_compute; reflexivity |].
  apply (bool_decide_unpack _). vm_compute. exact I.
Qed.

Lemma matrix_columns_and_cells_witness :
  ∃ matrix m,
    technique_matrix scenario
      {| columns := columns (json_normalize scenario);
         rows := [flatten cell_A] |} ["SANS"; "XAS"; "XRD"] = Ok matrix
    ∧ df_matrix matrix = Some m
    ∧ ∀ t, t ∈ m_columns m
           ↔ ∃ e, e ∈ scenario ∧ t ∈ techniques (compatibility e).
Proof.
  destruct (matrix_columns_and_cells scenario xrd_high_temp _ _
              scenario_xrd_high_temp
              (proj1 scenario_techniques_without_Cell)
              (proj2 scenario_techniques_without_Cell) ltac:(done))
    as (matrix & m & Hm & Hdf & Hcols & _).
  by exists matrix, m.
Defined.

(** ** The page as a whole *)

Lemma main_table_Ok df :
  (∀ label, label ∈ table_labels → label ∈ columns df) →
  main_table df = Ok (table_row <$> rows df).
Proof.
  intros Hall. unfold main_table. rewrite filter_none; [done |].
  intros label Hl Hn. by apply Hn, Hall.
Qed.

Lemma main_table_columns df table :
  main_table df = Ok table →
  ∀ label, label ∈ table_labels → label ∈ columns df.
Proof.
  unfold main_table. intros Ht label Hl.
  destruct (filter (λ label, label ∉ columns df) table_labels) eqn:E;
    [| discriminate].
  destruct (decide (label ∈ columns df)) as [?|Hn]; [done |].
  exfalso. by eapply (filter_nil_not_elem_of _ _ label E).
Qed.

Lemma selected_names_in_registry data c out selection :
  filter_engine (json_normalize data) c = Ok out →
  (∀ names, selection = Some names → ∀ n, n ∈ names → n ∈ name <$> data) →
  ∀ n,
    n ∈ default
          (default []
             (match rows out with
              | [] => None
              | _ :: _ => (λ first, [first]) <$> head (r_name <$> rows out)
              end)) selection →
    n ∈ name <$> data.
Proof.
  intros Hf Hsel n Hn. destruct selection as [names|]; cbn in Hn.
  - by apply (Hsel names).
  - destruct (rows out) as [|r rest] eqn:E; cbn in Hn;
      [by apply elem_of_nil in Hn |].
    apply list_elem_of_singleton in Hn as ->.
    apply (filtered_names_in_registry data c out _ Hf). rewrite E. left.
Qed.

Lemma next_named_first data n e :
  next_named data n = Ok e →
  ∃ before after,
    data = (before ++ e :: after)%list
    ∧ name e = n
    ∧ ∀ e', e' ∈ before → name e' ≠ n.
Proof.
  intros Hnext. destruct (decide (n ∈ name <$> data)) as [Hin | Hout].
  - destruct (next_named_Ok data n Hin) as (before & e' & after & Hd & Hn & Hb & He).
    rewrite Hnext in He. injection He as <-. by exists before, after.
  - rewrite next_named_Raise in Hnext by done. discriminate.
Qed.

(** Each card is made from the first registry entry bearing the selected
    name. *)
Lemma comparison_first data selection cards :
  comparison data selection = Ok cards →
  Forall2 (λ n card, ∃ before e after,
             data = (before ++ e :: after)%list
             ∧ name e = n
             ∧ (∀ e', e' ∈ before → name e' ≠ n)
             ∧ card = card_of TECHNIQUE_DEFINITIONS e)
    selection cards.
Proof.
  revert cards. induction selection as [|n selection IH]; intros cards Hc;
    cbn [comparison] in Hc.
  - injection Hc as <-. constructor.
  - apply bind_Ok in Hc as (e & Hnext & Hc).
    apply bind_Ok in Hc as (cards' & Hrest & [= <-]).
    constructor; [| by apply IH].
    destruct (next_named_first data n e Hnext) as (before & after & Hd & Hn & Hb).
    by exists before, e, after.
Qed.

(** X18: the page renders exactly when no selection step meets a frame
    without rows, the registry is non-empty, some entry has [max_temp_c],
    some entry has a contact e-mail, the pressure box is unticked or some
    entry has [pressure_control], and every selected name is borne by a
    registry entry (the selector's default always is); in every other case
    an exception ends the run.  A rendered page shows the rows accepted by
    the criteria under the columns of the full frame, counts them as "Cells
    Found", lists them in the table, and has a matrix exactly when there is
    a row.  It has one card per selected name, by default the name of the
    first filtered row, and each card is made from the first registry entry
    bearing that name, which need not be a filtered entry; when the names of
    the registry are pairwise distinct, the default card is that of the
    first accepted entry. *)
Theorem page_renders data c selection :
  ((∃ page, render data c selection = Ok page) ↔
     regular (json_normalize data) c
     ∧ data ≠ []
     ∧ (∃ e, e ∈ data
             ∧ is_Some (max_temp_c (operating_limits (specifications e))))
     ∧ (∃ e, e ∈ data ∧ is_Some (contact_info e ≫= primary_email))
     ∧ (pressure_control_required c = false
        ∨ ∃ e, e ∈ data
               ∧ is_Some (pressure_control (operating_limits (specifications e))))
     ∧ (∀ names, selection = Some names →
          ∀ n, n ∈ names → n ∈ name <$> data))
  ∧ (∀ page, render data c selection = Ok page →
       rows (p_filtered page) = filter (accepts c) (flatten <$> data)
       ∧ columns (p_filtered page) = columns (json_normalize data)
       ∧ cells_found (p_metrics page) = length (rows (p_filtered page))
       ∧ p_table page = table_row <$> rows (p_filtered page)
       ∧ (p_matrix page = None ↔ rows (p_filtered page) = [])
       ∧ Forall2 (λ n card, ∃ before e after,
                    data = (before ++ e :: after)%list
                    ∧ name e = n
                    ∧ (∀ e', e' ∈ before → name e' ≠ n)
                    ∧ card = card_of TECHNIQUE_DEFINITIONS e)
           (default (take 1 (r_name <$> rows (p_filtered page))) selection)
           (p_cards page)
       ∧ (selection = None → NoDup (name <$> data) →
          p_cards page
          = card_of TECHNIQUE_DEFINITIONS
              <$> take 1 (filter (λ e, accepts c (flatten e)) data))).
Proof.
  set (df := json_normalize data).
  assert (∀ page, render data c selection = Ok page →
            ∃ techs instrs out m table selector cards matrix download,
              all_techniques df = Ok techs
              ∧ all_instruments df = Ok instrs
              ∧ filter_engine df c = Ok out
              ∧ metrics out = Ok m
              ∧ main_table out = Ok table
              ∧ cell_selector out = Ok selector
              ∧ comparison data (default (default [] selector.2) selection)
                = Ok cards
              ∧ technique_matrix data out techs = Ok matrix
              ∧ filtered_json_download data out = Ok download
              ∧ page = {| p_techniques := techs; p_instruments := instrs;
                          p_filtered := out; p_metrics := m; p_table := table;
                          p_options := selector.1; p_cards := cards;
                          p_matrix := df_matrix matrix;
                          p_download := download |}) as Hsteps.
  { intros page H. unfold render in H. fold df in H.
    apply bind_Ok in H as (techs & E1 & H).
    apply bind_Ok in H as (instrs & E2 & H).
    apply bind_Ok in H as (out & E3 & H).
    apply bind_Ok in H as (m & E4 & H).
    apply bind_Ok in H as (table & E5 & H).
    apply bind_Ok in H as (selector & E6 & H).
    apply bind_Ok in H as (cards & E7 & H).
    apply bind_Ok in H as (matrix & E8 & H).
    apply bind_Ok in H as (download & E9 & [= <-]).
    by exists techs, instrs, out, m, table, selector, cards, matrix, download. }
  assert (∀ out m, filter_engine df c = Ok out → metrics out = Ok m →
                   regular df c) as Hregular.
  { intros out m E3 E4. apply metrics_Ok in E4 as (Hcad & _).
    by apply (filtered_columns _ _ _ E3) in Hcad as [? _]. }
  split; [split |].
  - intros [page H].
    destruct (Hsteps page H)
      as (techs & instrs & out & m & table & selector & cards & matrix
          & download & E1 & E2 & E3 & E4 & E5 & E6 & E7 & E8 & E9 & _).
    unfold all_techniques in E1. apply bind_Ok in E1 as (subs & Hcol & _).
    apply column_Ok in Hcol as [Hcol _].
    assert (data ≠ []) as Hne.
    { apply (required_columns_json_normalize data col_techniques); [| done].
      apply elem_of_required_columns. tauto. }
    pose proof (Hregular out m E3 E4) as Hreg.
    pose proof E3 as E3'.
    apply (filter_engine_Ok _ _ _ Hreg) in E3' as (Hneed & Hc & Hr).
    apply needed_columns_spec in Hneed as (_ & _ & _ & N4 & _).
    pose proof (main_table_columns out table E5) as Hlabels.
    rewrite Hc in Hlabels.
    split; [done |]. split; [done |]. split; [| split; [| split]].
    + apply col_max_temp_json_normalize, Hlabels.
      unfold table_labels. do 4 right. left.
    + apply col_email_json_normalize, Hlabels.
      unfold table_labels. do 5 right. left.
    + destruct N4 as [?|N4]; [by left | right].
      by apply col_pressure_json_normalize.
    + intros names -> n Hn. cbn in E7.
      destruct (decide (n ∈ name <$> data)) as [?|Hout]; [done |].
      rewrite (comparison_Raise data names n Hn Hout) in E7. discriminate.
  - intros (Hreg & Hne & Hmax & Hmail & Hpress & Hsel).
    assert (∀ label, label ∈ required_columns → label ∈ columns df) as Hreq.
    { intros label Hl. by apply required_columns_json_normalize. }
    assert (col_max_temp ∈ columns df) as Hcmax
      by (by apply col_max_temp_json_normalize).
    assert (col_email ∈ columns df) as Hcmail
      by (by apply col_email_json_normalize).
    set (out := {| columns := columns df;
                   rows := filter (accepts c) (rows df) |}).
    assert (filter_engine df c = Ok out) as E3.
    { apply (filter_engine_Ok _ _ _ Hreg). split; [| done].
      apply needed_columns_spec.
      repeat split.
      - right. apply Hreq, elem_of_required_columns. tauto.
      - right. apply Hreq, elem_of_required_columns. tauto.
      - right. apply Hreq, elem_of_required_columns. tauto.
      - destruct Hpress as [?|?]; [by left | right].
        by apply col_pressure_json_normalize.
      - by right. }
    destruct (comparison_Ok data
                (default
                   (default []
                      (match rows out with
                       | [] => None
                       | _ :: _ => (λ first, [first]) <$> head (r_name <$> rows out)
                       end)) selection))
      as (cards & E7 & _).
    { by apply (selected_names_in_registry data c out selection E3). }
    eexists. unfold render. fold df.
    unfold all_techniques, all_instruments, column at 1 2.
    rewrite !decide_True by (apply Hreq, elem_of_required_columns; tauto).
    cbn [mbind result_bind]. rewrite E3. cbn [mbind result_bind].
    rewrite (metrics_value out)
      by (first [ apply Hreq, elem_of_required_columns; tauto | done ]).
    cbn [mbind result_bind]. rewrite main_table_Ok.
    2:{ intros label Hl. unfold table_labels in Hl. cbn [out columns].
        repeat (apply elem_of_cons in Hl as [->|Hl];
                [first [ apply Hreq, elem_of_required_columns; tauto
                       | done ] |]).
        by apply elem_of_nil in Hl. }
    cbn [mbind result_bind]. unfold cell_selector, column at 1.
    rewrite decide_True by (apply Hreq, elem_of_required_columns; tauto).
    cbn [mbind result_bind snd fst]. rewrite E7. cbn [mbind result_bind].
    rewrite technique_matrix_Ok
      by (left; apply Hreq, elem_of_required_columns; tauto).
    cbn [mbind result_bind].
    rewrite (proj1 (filtered_json_download_Ok data c out Hreg E3 Hne)).
    cbn [mbind result_bind]. reflexivity.
  - intros page H.
    destruct (Hsteps page H)
      as (techs & instrs & out & m & table & selector & cards & matrix
          & download & E1 & E2 & E3 & E4 & E5 & E6 & E7 & E8 & E9 & ->).
    cbn [p_filtered p_metrics p_table p_matrix p_cards].
    pose proof (Hregular out m E3 E4) as Hreg.
    pose proof E3 as E3'.
    apply (filter_engine_Ok _ _ _ Hreg) in E3' as (_ & Hc & Hr).
    apply metrics_Ok in E4 as (_ & _ & ->).
    split; [exact Hr |]. split; [exact Hc |]. split; [done |]. split.
    { unfold main_table in E5.
      destruct (filter (λ label, label ∉ columns out) table_labels);
        [by injection E5 | discriminate]. }
    split.
    { destruct (matrix_presence_aux data c out techs Hreg E3)
        as (matrix' & Hm & Hp).
      rewrite E8 in Hm. injection Hm as <-. exact Hp. }
    unfold cell_selector in E6.
    apply bind_Ok in E6 as (names & Hcol & [= <-]).
    apply column_Ok in Hcol as [_ ->]. cbn [snd] in E7.
    assert (default []
              (match rows out with
               | [] => None
               | _ :: _ => (λ first, [first]) <$> head (r_name <$> rows out)
               end)
            = take 1 (r_name <$> rows out)) as Hdefault
      by (by destruct (rows out)).
    rewrite Hdefault in E7.
    pose proof (comparison_first data _ cards E7) as Hcards.
    split; [exact Hcards |].
    intros -> Hnd. cbn [default] in Hcards.
    assert (rows out = flatten <$> filter (λ e, accepts c (flatten e)) data)
      as Hrows.
    { rewrite Hr. cbn [df json_normalize rows]. apply filter_fmap_list. }
    rewrite Hrows in Hcards.
    destruct (filter (λ e, accepts c (flatten e)) data) as [|e0 rest] eqn:E.
    + cbn in Hcards. by apply Forall2_nil_inv_l in Hcards as ->.
    + cbn [fmap list_fmap take] in Hcards |- *.
      apply Forall2_cons_inv_l in Hcards
        as (card & cards' & (before & e & after & Hd & Hn & _ & ->) & Hnil & ->).
      apply Forall2_nil_inv_l in Hnil as ->.
      assert (e0 ∈ data) as He0.
      { assert (e0 ∈ filter (λ e, accepts c (flatten e)) data) as Hin
          by (rewrite E; left).
        by apply list_elem_of_filter in Hin as [_ ?]. }
      assert (e ∈ data) as He.
      { rewrite Hd. apply elem_of_app. right. left. }
      by rewrite (NoDup_fmap_eq name data e e0 Hnd He He0 Hn).
Qed.

Lemma page_renders_witness :
  ∃ page, render staffed xrd_only None = Ok page.
Proof.
  apply (page_renders staffed xrd_only None).
  split; [apply (bool_decide_unpack _); vm_compute; exact I |].
  split; [done |].
  split; [exists cell_M; split; [right; left | by eexists] |].
  split; [exists cell_M; split; [right; left | by eexists] |].
  split; [by left | intros names [=]].
Defined.

(** Two entries of one name: the filtered row is that of the second, the
    card that of the first. *)
Example namesakes_page :
  (λ page, (r_id <$> rows (p_filtered page),
            (λ card, (card_title card, card_type card)) <$> p_cards page))
    <$> (match render namesakes cad_only None with
         | Ok page => Some page | Raise _ => None end)
  = Some (["M"], [("M", "Coin cell")]).
Proof. vm_compute. reflexivity. Qed.

Example staffed_page :
  p_options <$> (match render staffed xrd_only None with
                 | Ok page => Some page | Raise _ => None end) = Some ["M"]
  ∧ render staffed pressure_only None
    = Raise (KeyError "specifications.operating_limits.pressure_control")
  ∧ ∃ key, render scenario no_criteria None = Raise (KeyError key).
Proof.
  split; [vm_compute; reflexivity |]. split; [vm_compute; reflexivity |].
  eexists. vm_compute. reflexivity.
Qed.

(** X19: when the filters leave no row and no selection step met a frame
    without rows, the download is the empty array, and the script cannot
    show it: loaded back, it gives a frame without columns, on which the
    page stops at the technique list with [KeyError], whatever the
    criteria.  When a selection step met a frame without rows, there is no
    download: reading the [id] column raises [KeyError]. *)
Theorem empty_result_download data c out :
  filter_engine (json_normalize data) c = Ok out →
  data ≠ [] →
  rows out = [] →
  (regular (json_normalize data) c →
   ∃ exported,
     filtered_json_download data out = Ok exported
     ∧ exported = []
     ∧ load_registry (json_dumps exported)
       = Loaded (json_normalize []) (RawList [])
     ∧ columns (json_normalize exported) = ∅
     ∧ ∀ c' selection,
         render exported c' selection = Raise (KeyError col_techniques))
  ∧ (¬ regular (json_normalize data) c →
     filtered_json_download data out = Raise (KeyError col_id)).
Proof.
  intros Hf Hne Hrows. split; intros Hreg.
  - destruct (filtered_json_download_Ok data c out Hreg Hf Hne) as [Hd _].
    rewrite Hrows in Hd. cbn [fmap list_fmap] in Hd.
    rewrite filter_none in Hd by (intros e _ H; by apply elem_of_nil in H).
    exists []. repeat split; done.
  - apply (filter_engine_collapsed _ _ _ Hreg) in Hf
      as (_ & _ & _ & _ & _ & Hc & _).
    unfold filtered_json_download, column. rewrite Hc.
    rewrite decide_False; [done | apply not_elem_of_empty].
Qed.

Lemma empty_result_download_witness :
  (filter_engine (json_normalize [cell_B]) cad_only
   = Ok {| columns := columns (json_normalize [cell_B]); rows := [] |}
   ∧ [cell_B] ≠ []
   ∧ rows {| columns := columns (json_normalize [cell_B]); rows := [] |} = []
   ∧ regular (json_normalize [cell_B]) cad_only)
  ∧ ∃ exported,
      filtered_json_download [cell_B]
        {| columns := columns (json_normalize [cell_B]); rows := [] |}
      = Ok exported
      ∧ exported = []
      ∧ load_registry (json_dumps exported)
        = Loaded (json_normalize []) (RawList [])
      ∧ columns (json_normalize exported) = ∅
      ∧ ∀ c' selection,
          render exported c' selection = Raise (KeyError col_techniques).
Proof.
  assert (filter_engine (json_normalize [cell_B]) cad_only
          = Ok {| columns := columns (json_normalize [cell_B]); rows := [] |})
    as Hf by (vm_compute; reflexivity).
  assert (regular (json_normalize [cell_B]) cad_only) as Hreg.
  { apply (bool_decide_unpack _). vm_compute. exact I. }
  split; [split; [exact Hf | split; [done | split; [done | exact Hreg]]] |].
  exact (proj1 (empty_result_download [cell_B] cad_only _ Hf ltac:(done)
                  eq_refl) Hreg).
Defined.
